(** * Evento: the ROI classification engine of [evento/event_alert.py]

    A shallow embedding of the class [EventManager] and of the three methods
    that classify detections against the configured regions of interest,
    followed by the properties of the engine.

    Conventions of the embedding.
    - [np_boxes] is an array of float64, the default of numpy.  The four
      coordinates of a row, from which the source computes the centre of
      the box, are floats of IEEE 754 binary64 ([float], with the
      operations of the Standard Library's specification of floats, which
      round to nearest, ties to even), and [int(x)] on them raises on an
      infinity and on a NaN.  The other floats (class, score, threshold,
      alpha, moments) are the rationals [Q] they stand for: the
      comparisons are exact on them, and [1 - alpha] and the quotient of
      two moments, which go to the drawing calls only, are taken as
      rationals;
    - Python [int] is [Z]; [int(x)] on a finite float truncates toward zero;
    - a Python exception is a value of [Error]; a method of the class is a
      function from the object to a result and the object afterwards, so
      that what has been assigned to [self] before an exception is kept;
    - the two OpenCV functions that decide behaviour, [cv2.pointPolygonTest]
      and [cv2.moments], are the fields of the class [OpenCV]; every general
      theorem holds for any implementation of them, and [cv2] is the
      implementation of the library's integer-contour algorithms used where
      a concrete run is evaluated;
    - an image is an abstract value; a drawing call is recorded as a
      [DrawOp] on a [Canvas], and [cv2.addWeighted] as a [Frame];
    - a dict whose order of keys matters ([contourROI]) is the list of its
      items, the other dicts are finite maps; the settings files are a
      function from paths to the parsed documents;
    - [print] calls are not modelled. *)

From Stdlib Require Import ZArith QArith Lia Ascii.
From Stdlib Require Import SpecFloat.
From stdpp Require Import gmap strings list pretty.

Local Open Scope Z_scope.

(** ** Python values *)

Inductive Error : Type :=
| KeyError (key : string)
| UnboundLocalError (name : string)
| FileNotFoundError (path : string)
| ZeroDivisionError
| OverflowError
| ValueError.

Definition Result (A : Type) : Type := Error + A.

Definition ok {A} (a : A) : Result A := inr a.
Definition raise {A} (e : Error) : Result A := inl e.

Definition bind {A B} (m : Result A) (k : A → Result B) : Result B :=
  match m with
  | inl e => inl e
  | inr a => k a
  end.

Declare Scope py_scope.
Delimit Scope py_scope with py.
Notation "x <~ m ; k" := (bind m (fun x => k))
  (at level 100, m at next level, right associativity) : py_scope.
Local Open Scope py_scope.

(** [d[k]] on a dict: [KeyError] when the key is absent. *)
Definition getitem {V} (d : gmap string V) (k : string) : Result V :=
  match d !! k with
  | Some v => ok v
  | None => raise (KeyError k)
  end.

(** A local variable that is assigned only on some paths. *)
Definition local {A} (name : string) (v : option A) : Result A :=
  match v with
  | Some a => ok a
  | None => raise (UnboundLocalError name)
  end.

(** [for x in xs: body], with the exceptions of the body. *)
Fixpoint for_each {A S} (xs : list A) (body : A → S → Result S) (s : S) : Result S :=
  match xs with
  | [] => ok s
  | x :: xs' => s' <~ body x s; for_each xs' body s'
  end.

(** [enumerate(xs)] *)
Definition enumerate {A} (xs : list A) : list (Z * A) :=
  imap (fun i x => (Z.of_nat i, x)) xs.

(** [int(x)] on a float: truncation toward zero. *)
Definition int (x : Q) : Z := Z.quot (Qnum x) (Z.pos (Qden x)).

(** ** Floats that are computed with *)

(** A float64: a zero, an infinity, a NaN, or a sign [s], a mantissa [m]
    and an exponent [e] for the number [(-1)^s * m * 2^e]. *)
Definition float : Type := spec_float.

(** [x + y], [x - y] and [x / y] on float64. *)
Definition fadd : float → float → float := SFadd 53 1024.
Definition fsub : float → float → float := SFsub 53 1024.
Definition fdiv : float → float → float := SFdiv 53 1024.

Declare Scope float_scope.
Delimit Scope float_scope with float.
Bind Scope float_scope with float.
Infix "+" := fadd : float_scope.
Infix "-" := fsub : float_scope.
Infix "/" := fdiv : float_scope.

(** The float64 of an [int], and the float64 that a decimal literal [n/d]
    is read as: the nearest to it, for [n] and [d] below [2^53]. *)
Definition float_of_Z (n : Z) : float := binary_normalize 53 1024 n 0 false.

Definition literal (q : Q) : float := (float_of_Z (Qnum q) / float_of_Z (Z.pos (Qden q)))%float.

(** The number a float64 stands for, in lowest terms; an infinity and a
    NaN stand for none. *)
Definition value (x : float) : option Q :=
  match x with
  | S754_zero _ => Some 0%Q
  | S754_finite s m e =>
      let n := if s then Z.neg m else Z.pos m in
      Some (if 0 <=? e then inject_Z (n * 2 ^ e) else Qred (n # 2 ^ Z.to_pos (- e)))
  | S754_infinity _ => None
  | S754_nan => None
  end.

(** [np.isfinite(x)] *)
Definition isfinite (x : float) : bool :=
  match value x with
  | Some _ => true
  | None => false
  end.

(** [int(x)] on a float64: [ValueError] on a NaN, [OverflowError] on an
    infinity. *)
Definition int_of_float (x : float) : Result Z :=
  match value x with
  | Some q => ok (int q)
  | None => raise (match x with S754_nan => ValueError | _ => OverflowError end)
  end.

(** ** The data of the engine *)

(** One row [class, score, x_min, y_min, x_max, y_max] of [np_boxes].  The
    rows are those of a detector on a frame: the coordinates are numbers
    and the centre of the box, as lines 185-186 compute it, is a number
    too ([b_finite]): no coordinate is an infinity or a NaN, and neither
    the width nor the height overflows.  On any other row line 188 raises
    ([int_of_float]); such a row is no [Box]. *)
Record Box : Type := mkBox {
  b_class : Q; b_score : Q;
  b_xmin : float; b_ymin : float; b_xmax : float; b_ymax : float;
  b_finite :
    isfinite (b_xmin + (b_xmax - b_xmin) / literal 2) &&
    isfinite (b_ymin + (b_ymax - b_ymin) / literal 2) = true
}.

Definition Point : Type := (Z * Z)%type.
Definition Contour : Type := list Point.

(** The dict read from an ROI settings file, in the order of the file; the
    keys of a dict are pairwise distinct ([dict_keys_distinct]). *)
Definition ROISettings : Type := list (string * Contour).

Definition dict_keys_distinct (d : ROISettings) : Prop := NoDup (d.*1).

Definition Color : Type := (Z * Z * Z)%type.

Record Moments : Type := mkMoments { m00 : Q; m10 : Q; m01 : Q }.

(** The OpenCV functions the engine calls on a contour.  [pointPolygonTest]
    is the call with [measureDist = False]: +1 inside, 0 on an edge or a
    vertex, -1 outside.  [moments] of a contour without area are all zero. *)
Class OpenCV : Type := {
  pointPolygonTest : Contour → Q * Q → Z;
  moments : Contour → Moments;
  moments_degenerate : ∀ cnt,
    m00 (moments cnt) == 0 → m10 (moments cnt) == 0 ∧ m01 (moments cnt) == 0
}.

Inductive DrawOp : Type :=
| putText (text : string) (org : Z * Z) (fontScale : Q) (color : Color) (thickness : Z)
| drawContours (cnt : Contour) (color : Color) (thickness : Z).


(** ** Helpers on floats and paths *)

(** [a > b] on floats. *)
Definition Qgtb (a b : Q) : bool := negb (Qle_bool a b).

(** [a != b] on floats. *)
Definition Qneb (a b : Q) : bool := negb (Qeq_bool a b).

(** [a / b] on Python floats. *)
Definition truediv (a b : Q) : Result Q :=
  if Qeq_bool b 0 then raise ZeroDivisionError else ok (a / b)%Q.

Fixpoint ends_with_slash (s : string) : bool :=
  match s with
  | EmptyString => false
  | String c EmptyString => bool_decide (c = "/"%char)
  | String _ s' => ends_with_slash s'
  end.

Definition starts_with_slash (s : string) : bool :=
  match s with
  | String c _ => bool_decide (c = "/"%char)
  | EmptyString => false
  end.

(** [os.path.join(a, b)] of two components (POSIX). *)
Definition os_path_join (a b : string) : string :=
  if starts_with_slash b then b
  else if bool_decide (a = ""%string) || ends_with_slash a then a +:+ b
  else a +:+ "/" +:+ b.

(** The documents under the configuration directory: [json.load(open(p))]
    raises [FileNotFoundError] when there is no file at [p]. *)
Definition Files : Type := string → option ROISettings.

Definition json_load_open (files : Files) (path : string) : Result ROISettings :=
  match files path with
  | Some d => ok d
  | None => raise (FileNotFoundError path)
  end.

(** ** The class [EventManager] *)

Record EventManager : Type := mkEventManager {
  configPath : string;
  contourROI : ROISettings;
  colorBlink : Z;
  eventType : Z
}.

(** The three dicts the constructor assigns and nothing changes. *)
Definition eventName : gmap Z string :=
  <[0 := "EventStat"%string]> (<[1 := "AlertStranger"%string]> (<[2 := "MonitorVehicle"%string]> ∅)).

Definition objects : gmap Z string :=
  <[0 := "person"%string]> (<[1 := "bicycle"%string]>
    (<[2 := "car"%string]> (<[3 := "motorcycle"%string]> ∅))).

Definition ROIColor : gmap string Color :=
  <["ROI 1"%string := (0, 255, 0)]> (<["ROI 2"%string := (255, 0, 255)]>
    (<["ROI 3"%string := (255, 255, 0)]> (<["ROI 4"%string := (255, 0, 0)]>
      (<["ROI 5"%string := (50, 30, 70)]> ∅)))).

Definition alertColor : Color := (0, 0, 255).

(** [self.eventName[eventType]] *)
Definition eventName_getitem (eventType : Z) : Result string :=
  match eventName !! eventType with
  | Some s => ok s
  | None => raise (KeyError (pretty eventType))
  end.

(** [self.objects.get(c, "Unknown")] with a float key: a float equals the
    int key of the same value. *)
Definition objects_get (c : Q) : string :=
  if Qeq_bool c (inject_Z (int c)) then default "Unknown"%string (objects !! int c)
  else "Unknown"%string.

Definition settings_path (config : string) (name : string) : string :=
  os_path_join config (name +:+ ".json").

(** [EventManager(config, eventType)], lines 100-107. *)
Definition init (files : Files) (config : string) (eventType : Z) : Result EventManager :=
  name <~ eventName_getitem eventType;
  d <~ json_load_open files (settings_path config name);
  ok (mkEventManager config d 0 eventType).

(** A method: a result or an exception, and the object afterwards. *)
Definition Method (A : Type) : Type := EventManager → Result A * EventManager.

(** [updateROISettings], lines 119-120: [eventType] is assigned before the
    file is opened. *)
Definition updateROISettings (files : Files) (eventType' : Z) : Method unit :=
  fun self =>
    let self := mkEventManager (configPath self) (contourROI self) (colorBlink self) eventType' in
    match (name <~ eventName_getitem (eventType self);
           json_load_open files (settings_path (configPath self) name)) with
    | inl e => (raise e, self)
    | inr d => (ok tt, mkEventManager (configPath self) d (colorBlink self) (eventType self))
    end.

(** [getEventName], line 131. *)
Definition getEventName (eventType' : Z) : Method string :=
  fun self => (eventName_getitem eventType', self).

(** 0.4 is [0x1.999999999999ap-2] and 201.6 is [0x1.9333333333333p+7]. *)
Example literal_check :
  literal 0.4 = S754_finite false 0x1999999999999a (-54) ∧
  literal 201.6 = S754_finite false 0x19333333333333 (-45) ∧
  literal 2 = S754_finite false 0x10000000000000 (-51) ∧
  int_of_float (literal (-7.9)) = ok (-7) ∧
  int_of_float (literal 1 / literal 0) = raise OverflowError ∧
  int_of_float (literal 0 / literal 0) = raise ValueError.
Proof. by vm_compute. Qed.

Example os_path_join_check :
  settings_path "config" "EventStat" = "config/EventStat.json"%string.
Proof. reflexivity. Qed.

(** ** The classification methods *)

(** What a method does to the pixels is kept as the list of drawing calls
    made on a copy of the input image. *)
Record Canvas (Img : Type) : Type := mkCanvas { source : Img; drawn : list DrawOp }.
Arguments mkCanvas {Img}.
Arguments source {Img}.
Arguments drawn {Img}.

(** [final_np_1]: the copy of the image, or what the last
    [cv2.addWeighted(src1, alpha, src2, beta, gamma, final_np_1)] wrote. *)
Inductive Frame (Img : Type) : Type :=
| plain (c : Canvas Img)
| addWeighted (src1 : Canvas Img) (alpha : Q) (src2 : Canvas Img) (beta gamma : Q).
Arguments plain {Img}.
Arguments addWeighted {Img}.

(** The local variables of a classification method.  The three images are
    bound only when [img] is not [None] (lines 165-168). *)
Record Locals (Img : Type) : Type := mkLocals {
  results : list (Box * Z);
  varApp : gmap string Z;
  y : Z;
  overlay_np : option (Canvas Img);
  final_np : option (Canvas Img);
  final_np_1 : option (Frame Img)
}.
Arguments mkLocals {Img}.
Arguments results {Img}.
Arguments varApp {Img}.
Arguments y {Img}.
Arguments overlay_np {Img}.
Arguments final_np {Img}.
Arguments final_np_1 {Img}.

(** What a method returns: [final_np_1, results, varApp]. *)
Definition Output (Img : Type) : Type := (Frame Img * list (Box * Z) * gmap string Z)%type.

(** The three methods have the same text except at three places: the mask
    [expect_boxes], the block that writes the caption of a region, and the
    condition under which the contour is filled in the alert colour. *)
Record Event : Type := mkEvent {
  (** the mask over the rows, given [threshold] *)
  expect_boxes : Q → Box → bool;
  (** the caption block, given [colorBlink], [indexROI], [varApp[whichROI]]
      and [np_boxes]: nothing, or whether the alert colour is used, the
      text and the font scale *)
  caption : Z → Z → Z → list Box → Result (option (bool * string * Q));
  (** the condition of the contour block, given [colorBlink] and
      [varApp[whichROI]] *)
  alert : Z → Z → bool
}.

(** [findEventStat]: lines 171, 201-212 and 218. *)
Definition EventStat (vehicleThres : Z) : Event := {|
  expect_boxes threshold box := Qgtb (b_score box) threshold && Qgtb (b_class box) (-1);
  caption colorBlink indexROI n np_boxes :=
    if negb (n =? 0) then
      ok (Some ((colorBlink <? 5) && (n >=? vehicleThres),
                "Lane " +:+ pretty (indexROI + 1) +:+ " : " +:+ pretty n, 0.65%Q))
    else ok None;
  alert colorBlink n := (colorBlink <? 5) && (n >=? vehicleThres)
|}.

(** [alertStrangerIntrusion]: lines 276, 305-314 and 318. *)
Definition AlertStranger : Event := {|
  expect_boxes threshold box := Qgtb (b_score box) threshold && Qeq_bool (b_class box) 0;
  caption colorBlink indexROI n np_boxes :=
    if negb (n =? 0) then
      ok (Some (colorBlink <? 5,
                pretty n +:+ " Stranger Intrusion in Location " +:+ pretty (indexROI + 1),
                0.65%Q))
    else ok None;
  alert colorBlink n := (colorBlink <? 5) && negb (n =? 0)
|}.

(** [monitorVehicle]: lines 377, 407-423 and 427.  [box] in the second
    caption is the variable of the loop over [np_boxes], so its last row. *)
Definition MonitorVehicle : Event := {|
  expect_boxes threshold box :=
    Qgtb (b_score box) threshold &&
    (Qeq_bool (b_class box) 1 || Qeq_bool (b_class box) 2 || Qeq_bool (b_class box) 3);
  caption colorBlink indexROI n np_boxes :=
    if n =? 0 then
      ok (Some (colorBlink <? 5,
                "!!!No or missing vehicle Alert in Location " +:+ pretty (indexROI + 1) +:+ "!!!",
                0.7%Q))
    else
      box <~ local "box" (last np_boxes);
      ok (Some (false,
                "My " +:+ objects_get (b_class box) +:+ " in Location " +:+ pretty (indexROI + 1),
                0.65%Q));
  alert colorBlink n := (colorBlink <? 5) && (n =? 0)
|}.

Section Classification.

Context {Img : Type} `{OpenCV}.

(** Lines 185-186, in float64. *)
Definition center (box : Box) : float * float :=
  ((b_xmin box + (b_xmax box - b_xmin box) / literal 2)%float,
   (b_ymin box + (b_ymax box - b_ymin box) / literal 2)%float).

(** Line 188: the test is made at [(int(pointX), int(pointY))]. *)
Definition isIntrusion (cnt : Contour) (box : Box) : Result Z :=
  let '(pointX, pointY) := center box in
  ix <~ int_of_float pointX;
  iy <~ int_of_float pointY;
  ok (pointPolygonTest cnt (inject_Z ix, inject_Z iy)).

(** The body of the loop over [np_boxes], lines 181-198. *)
Definition tag_box (cnt : Contour) (indexROI : Z) (whichROI : string)
    (box : Box) (l : Locals Img) : Result (Locals Img) :=
  isIntrusion <~ isIntrusion cnt box;
  if (isIntrusion =? 1) || (isIntrusion =? 0) then
    n <~ getitem (varApp l) whichROI;
    ok (mkLocals (results l ++ [(box, indexROI + 1)]) (<[whichROI := n + 1]> (varApp l))
                 (y l) (overlay_np l) (final_np l) (final_np_1 l))
  else ok l.

(** The condition of line 191 on a row; line 188 raises nothing on a row
    of the array ([isIntrusion_returns] below). *)
Definition inside (cnt : Contour) (box : Box) : bool :=
  match isIntrusion cnt box with
  | inr isIntrusion => (isIntrusion =? 1) || (isIntrusion =? 0)
  | inl _ => false
  end.

(** A drawing call on a local image. *)
Definition draw (name : string) (image : option (Canvas Img)) (op : DrawOp)
    : Result (option (Canvas Img)) :=
  c <~ local name image;
  ok (Some (mkCanvas (source c) (drawn c ++ [op]))).

(** [bColor]: the alert colour, or [self.ROIColor[whichROI]]. *)
Definition bColor (alerting : bool) (whichROI : string) : Result Color :=
  if alerting then ok alertColor else getitem ROIColor whichROI.

(** Lines 225-229: the index of the region at the centroid. *)
Definition label_centroid (cnt : Contour) (indexROI : Z) (image : option (Canvas Img))
    : Result (option (Canvas Img)) :=
  let moment := moments cnt in
  if Qneb (m10 moment) (m00 moment) && Qneb (m01 moment) (m00 moment) then
    cx <~ truediv (m10 moment) (m00 moment);
    cy <~ truediv (m01 moment) (m00 moment);
    draw "final_np" image
         (putText (pretty (indexROI + 1)) (int cx, int cy) 0.7%Q (0, 0, 0) 2)
  else ok image.

Variables (E : Event) (blink : Z) (np_boxes : list Box) (img : option Img)
          (alpha : Q) (drawContour : bool).

(** The caption block of a region. *)
Definition write_caption (indexROI : Z) (whichROI : string) (l : Locals Img)
    : Result (Locals Img) :=
  n <~ getitem (varApp l) whichROI;
  c <~ caption E blink indexROI n np_boxes;
  match c with
  | None => ok l
  | Some (alerting, stringValue, fontScale) =>
      color <~ bColor alerting whichROI;
      f <~ draw "final_np" (final_np l) (putText stringValue (20, y l) fontScale color 2);
      ok (mkLocals (results l) (varApp l) (y l + 20) (overlay_np l) f (final_np_1 l))
  end.

(** The contour block of a region, lines 215-231.  The caption block has
    read [varApp[whichROI]] already, so reading it here raises nothing,
    whether [colorBlink < 5] or not. *)
Definition draw_contour (cnt : Contour) (indexROI : Z) (whichROI : string)
    (l : Locals Img) : Result (Locals Img) :=
  if bool_decide (img ≠ None) && drawContour then
    n <~ getitem (varApp l) whichROI;
    color <~ bColor (alert E blink n) whichROI;
    o <~ draw "overlay_np" (overlay_np l) (drawContours cnt color (-1));
    o <~ draw "overlay_np" o (drawContours cnt (255, 255, 255) 4);
    f <~ label_centroid cnt indexROI (final_np l);
    src1 <~ local "overlay_np" o;
    src2 <~ local "final_np" f;
    ok (mkLocals (results l) (varApp l) (y l) o f
                 (Some (addWeighted src1 alpha src2 (1 - alpha) 0)))
  else ok l.

(** The body of the loop over the regions, lines 176-231. *)
Definition region (entry : Z * (string * Contour)) (l : Locals Img)
    : Result (Locals Img) :=
  let '(indexROI, (whichROI, vertices)) := entry in
  if bool_decide (vertices = []) then ok l
  else
    let cnt := vertices in
    l <~ for_each np_boxes (tag_box cnt indexROI whichROI) l;
    l <~ write_caption indexROI whichROI l;
    draw_contour cnt indexROI whichROI l.

End Classification.

(** Lines 157-162. *)
Definition varApp0 : gmap string Z :=
  <["ROI 1"%string := 0]> (<["ROI 2"%string := 0]> (<["ROI 3"%string := 0]>
    (<["ROI 4"%string := 0]> (<["ROI 5"%string := 0]> ∅)))).

(** [np_boxes.size] of an array of shape [N, 6]. *)
Definition size (np_boxes : list Box) : Z := Z.of_nat (length np_boxes) * 6.

(** [img.copy()] when [img] is not [None]. *)
Definition copy {Img} (img : option Img) : option (Canvas Img) :=
  (fun i => mkCanvas i []) <$> img.

(** Lines 233-235. *)
Definition advance (self : EventManager) : EventManager :=
  let self := mkEventManager (configPath self) (contourROI self)
                             (colorBlink self + 1) (eventType self) in
  if colorBlink self =? 10
  then mkEventManager (configPath self) (contourROI self) 0 (eventType self)
  else self.

(** The filtered rows, lines 170-172. *)
Definition mask (E : Event) (threshold : Q) (np_boxes : list Box) : list Box :=
  if negb (size np_boxes =? 0) then List.filter (expect_boxes E threshold) np_boxes
  else np_boxes.

(** The loop over the given entries of [enumerate(self.contourROI.keys())]
    and what follows it. *)
Definition classify_over `{OpenCV} {Img} (entries : list (Z * (string * Contour)))
    (E : Event) (np_boxes : list Box) (img : option Img)
    (threshold alpha : Q) (drawContour : bool) : Method (Output Img) :=
  fun self =>
    let l := mkLocals [] varApp0 20 (copy img) (copy img) (plain <$> copy img) in
    let np_boxes := mask E threshold np_boxes in
    match for_each entries (region E (colorBlink self) np_boxes img alpha drawContour) l with
    | inl e => (raise e, self)
    | inr l =>
        let self := advance self in
        (final <~ local "final_np_1" (final_np_1 l); ok (final, results l, varApp l), self)
    end.

(** The common text of the three methods. *)
Definition classify `{OpenCV} {Img} (E : Event) (np_boxes : list Box) (img : option Img)
    (threshold alpha : Q) (drawContour : bool) : Method (Output Img) :=
  fun self =>
    classify_over (enumerate (contourROI self)) E np_boxes img threshold alpha drawContour self.

Definition findEventStat `{OpenCV} {Img} (np_boxes : list Box) (img : option Img)
    (threshold alpha : Q) (drawContour : bool) (vehicleThres : Z) : Method (Output Img) :=
  classify (EventStat vehicleThres) np_boxes img threshold alpha drawContour.

Definition alertStrangerIntrusion `{OpenCV} {Img} (np_boxes : list Box) (img : option Img)
    (threshold alpha : Q) (drawContour : bool) : Method (Output Img) :=
  classify AlertStranger np_boxes img threshold alpha drawContour.

Definition monitorVehicle `{OpenCV} {Img} (np_boxes : list Box) (img : option Img)
    (threshold alpha : Q) (drawContour : bool) : Method (Output Img) :=
  classify MonitorVehicle np_boxes img threshold alpha drawContour.

(** ** OpenCV on integer contours *)

(** The algorithms OpenCV runs on a contour of integer points: the
    crossing test of [pointPolygonTest] when no distance is asked, and the
    moments of a polygon by Green's formula.  Coordinates and sums are
    exact here. *)
Module cv2.

(** The crossing loop of [pointPolygonTest] without distance: [v0] is the
    previous vertex, the first one being paired with the last. *)
Fixpoint crossing (pt : Q * Q) (v0 : Point) (vs : list Point) (counter : Z) : Z :=
  match vs with
  | [] => if Z.even counter then -1 else 1
  | v :: vs' =>
      let '(px, py) := pt in
      let '(v0x, v0y) := (inject_Z v0.1, inject_Z v0.2) in
      let '(vx, vy) := (inject_Z v.1, inject_Z v.2) in
      if (Qle_bool v0y py && Qle_bool vy py) || (Qgtb v0y py && Qgtb vy py)
         || (Qgtb px v0x && Qgtb px vx)
      then
        if Qeq_bool py vy &&
           (Qeq_bool px vx ||
            (Qeq_bool py v0y &&
             ((Qle_bool v0x px && Qle_bool px vx) || (Qle_bool vx px && Qle_bool px v0x))))
        then 0
        else crossing pt v vs' counter
      else
        let dist := ((py - v0y) * (vx - v0x) - (px - v0x) * (vy - v0y))%Q in
        if Qeq_bool dist 0 then 0
        else
          let dist := if Qgtb v0y vy then (- dist)%Q else dist in
          crossing pt v vs' (counter + (if Qgtb dist 0 then 1 else 0))
  end.

Definition pointPolygonTest (cnt : Contour) (pt : Q * Q) : Z :=
  match last cnt with
  | None => -1
  | Some v => crossing pt v cnt 0
  end.

(** The sums of Green's formula over the edges: [a00], [a10], [a01]. *)
Fixpoint green (prev : Point) (pts : list Point) (a : Z * Z * Z) : Z * Z * Z :=
  match pts with
  | [] => a
  | p :: pts' =>
      let '(a00, a10, a01) := a in
      let dxy := prev.1 * p.2 - p.1 * prev.2 in
      green p pts' (a00 + dxy, a10 + dxy * (prev.1 + p.1), a01 + dxy * (prev.2 + p.2))
  end.

(** The spatial moments of a contour: all zero without area, and of the
    sign that makes [m00] positive otherwise. *)
Definition moments (cnt : Contour) : Moments :=
  match last cnt with
  | None => mkMoments 0 0 0
  | Some p =>
      let '(a00, a10, a01) := green p cnt (0, 0, 0) in
      if a00 =? 0 then mkMoments 0 0 0
      else if 0 <? a00 then mkMoments (a00 # 2) (a10 # 6) (a01 # 6)
      else mkMoments (- a00 # 2) (- a10 # 6) (- a01 # 6)
  end.

Lemma moments_degenerate (cnt : Contour) :
  m00 (moments cnt) == 0 → m10 (moments cnt) == 0 ∧ m01 (moments cnt) == 0.
Proof.
  unfold moments. destruct (last cnt) as [p|]; [|done].
  destruct (green p cnt (0, 0, 0)) as [[a00 a10] a01].
  destruct (Z.eqb_spec a00 0) as [->|Hne]; [done|].
  destruct (0 <? a00); cbn; unfold Qeq; cbn; lia.
Qed.

End cv2.

#[export] Instance cv2_library : OpenCV := {|
  pointPolygonTest := cv2.pointPolygonTest;
  moments := cv2.moments;
  moments_degenerate := cv2.moments_degenerate
|}.

(** ** The configuration page, [evento/ui_server.py] *)

(** The page edits the settings of one event and saves them in the file
    the pipeline reads.  The widgets of Streamlit are the arguments of the
    functions: the region and the point the sliders select, and which
    buttons were pressed in this run of the script.  The frame read from
    Redis and decoded is the argument [img_np]; what is displayed is
    returned; the connection to Redis and the table of points are not
    modelled. *)
Module ui_server.

(** Lines 124 and 234. *)
Definition empty_settings : ROISettings :=
  [("ROI 1"%string, []); ("ROI 2"%string, []); ("ROI 3"%string, []);
   ("ROI 4"%string, []); ("ROI 5"%string, [])].

(** [contourROI[whichROI]] on the dict of the settings. *)
Fixpoint item (contourROI : ROISettings) (whichROI : string) : Result Contour :=
  match contourROI with
  | [] => raise (KeyError whichROI)
  | (k, points) :: rest =>
      if bool_decide (k = whichROI) then ok points else item rest whichROI
  end.

(** The dict once the list under [whichROI] has been changed in place. *)
Fixpoint set_item (contourROI : ROISettings) (whichROI : string) (points : Contour)
    : ROISettings :=
  match contourROI with
  | [] => []
  | (k, old) :: rest =>
      if bool_decide (k = whichROI) then (k, points) :: rest
      else (k, old) :: set_item rest whichROI points
  end.

(** Lines 116-117. *)
Definition create_point (whichROI : string) (x y : Z) (contourROI : ROISettings)
    : Result ROISettings :=
  points <~ item contourROI whichROI;
  if bool_decide ((x, y) ∉ points)
  then ok (set_item contourROI whichROI (points ++ [(x, y)]))
  else ok contourROI.

(** Lines 120-121. *)
Definition delete_last_point (whichROI : string) (contourROI : ROISettings)
    : Result ROISettings :=
  points <~ item contourROI whichROI;
  if negb (bool_decide (points = []))
  then ok (set_item contourROI whichROI (removelast points))
  else ok contourROI.

(** Which of the three buttons return [True] in this run. *)
Record Buttons : Type := mkButtons {
  create_points : bool; delete_last_points : bool; clear_all : bool
}.

(** Lines 115-124. *)
Definition press (buttons : Buttons) (whichROI : string) (x y : Z)
    (contourROI : ROISettings) : Result ROISettings :=
  contourROI <~ (if create_points buttons then create_point whichROI x y contourROI
                 else ok contourROI);
  contourROI <~ (if delete_last_points buttons then delete_last_point whichROI contourROI
                 else ok contourROI);
  ok (if clear_all buttons then empty_settings else contourROI).

(** An image of the page: a copy of the frame, a drawing call on an image,
    [cv2.addWeighted] written over an image, or [cv2.circle]. *)
Inductive Picture (Img : Type) : Type :=
| copied (img : Img)
| painted (image : Picture Img) (op : DrawOp)
| blended (src1 : Picture Img) (alpha : Q) (src2 : Picture Img) (beta gamma : Q)
| circled (image : Picture Img) (center : Z * Z) (radius : Z) (color : Color) (thickness : Z).
Arguments copied {Img}.
Arguments painted {Img}.
Arguments blended {Img}.
Arguments circled {Img}.

(** The body of the loop of lines 126-140, on [(overlay_np, final_np)]. *)
Definition paint_region `{OpenCV} {Img} (alpha : Q) (entry : Z * (string * Contour))
    (images : Picture Img * Picture Img) : Result (Picture Img * Picture Img) :=
  let '(index, (whichROI, vertices)) := entry in
  let '(overlay_np, final_np) := images in
  if bool_decide (vertices = []) then ok images
  else
    let ctr := vertices in
    color <~ getitem ROIColor whichROI;
    let overlay_np := painted overlay_np (drawContours ctr color (-1)) in
    let overlay_np := painted overlay_np (drawContours ctr (255, 255, 255) 4) in
    let final_np := blended overlay_np alpha final_np (1 - alpha) 0 in
    let moment := moments ctr in
    if Qneb (m10 moment) (m00 moment) && Qneb (m01 moment) (m00 moment) then
      centerX <~ truediv (m10 moment) (m00 moment);
      centerY <~ truediv (m01 moment) (m00 moment);
      ok (overlay_np,
          painted final_np
            (putText (pretty (index + 1)) (int centerX, int centerY) 0.7%Q (0, 0, 0) 2))
    else ok (overlay_np, final_np).

(** [with open(path, 'w') as f: json.dump(d, f)], in a directory that
    exists. *)
Definition json_dump_open (files : Files) (path : string) (d : ROISettings) : Files :=
  fun p => if bool_decide (p = path) then Some d else files p.

(** [configureROI], lines 105-147: the files afterwards and the image that
    is displayed. *)
Definition configureROI `{OpenCV} {Img} (img_np : Img) (contourROI : ROISettings)
    (eventType : string) (app_config_dir : string)
    (whichROI : string) (x y : Z) (alpha : Q) (buttons : Buttons) (files : Files)
    : Result (Files * Picture Img) :=
  contourROI <~ press buttons whichROI x y contourROI;
  images <~ for_each (enumerate contourROI) (paint_region alpha)
                     (copied img_np, copied img_np);
  let files := json_dump_open files
                 (os_path_join app_config_dir (eventType +:+ ".json")) contourROI in
  ok (files, circled images.2 (x, y) 10 (255, 0, 0) (-1)).

(** The keys "app_mode" and "event_type" of Redis. *)
Record Control : Type := mkControl { app_mode : option Z; event_type : option Z }.

(** How a run of the script ends: the configuration page with its image,
    the loop of [streamAlert], which writes neither files nor keys, or
    neither. *)
Inductive Page (Img : Type) : Type :=
| configuring (image : Picture Img)
| streaming
| idle.
Arguments configuring {Img}.
Arguments streaming {Img}.
Arguments idle {Img}.

(** Lines 254-261: the number written for the event selected. *)
Definition set_event_type (eventType : string) (prd : Control) : Control :=
  if bool_decide (eventType = "EventStat"%string) then mkControl (app_mode prd) (Some 0)
  else if bool_decide (eventType = "AlertStranger"%string) then mkControl (app_mode prd) (Some 1)
  else if bool_decide (eventType = "MonitorVehicle"%string) then mkControl (app_mode prd) (Some 2)
  else prd.

(** [runStreamlitServer], lines 225-267, for the selections [app_mode] and
    [eventType] of the two select boxes: the files and the keys
    afterwards, and the page or the exception of [configureROI]. *)
Definition runStreamlitServer `{OpenCV} {Img} (app_config_dir : string)
    (app_mode' eventType : string) (img_np : Img)
    (whichROI : string) (x y : Z) (alpha : Q) (buttons : Buttons)
    (files : Files) (prd : Control) : Files * Control * Result (Page Img) :=
  let configFile := os_path_join app_config_dir (eventType +:+ ".json") in
  let '(contourROI, files) :=
    match files configFile with
    | None => (empty_settings, json_dump_open files configFile empty_settings)
    | Some d => (d, files)
    end in
  if bool_decide (app_mode' = "ROI Configuration"%string) then
    let prd := mkControl (Some 1) (event_type prd) in
    match configureROI img_np contourROI eventType app_config_dir whichROI x y alpha
                       buttons files with
    | inl e => (files, prd, raise e)
    | inr (files, image) => (files, prd, ok (configuring image))
    end
  else if bool_decide (app_mode' = "Event Alert Stream"%string) then
    let prd := mkControl (Some 2) (event_type prd) in
    let prd := set_event_type eventType prd in
    (files, prd, ok streaming)
  else (files, mkControl (Some 0) (event_type prd), ok idle).

End ui_server.

(** ** The pipeline, [evento/app_server.py] *)

(** [predict_publish] runs on what it reads: the frames of the capture, and
    at every pass of its inner loop the two keys of Redis and, when it
    reloads the settings, the files.  What it writes to Redis is kept as a
    list.  The detector and [visualize_box_mask] are parameters; the
    encodings of images and of the counts are not modelled. *)
Module app_server.

(** What one pass of the inner loop reads: [int(prd.get("app_mode"))],
    [int(prd.get("event_type"))], and the settings files at that time. *)
Record Poll : Type := mkPoll {
  polled_app_mode : Z; polled_event_type : Z; polled_files : Files
}.

(** [prd.set(eventName, pic_str)] of line 100, and
    [prd.xadd('camera:0', msg, maxlen=1000)] of line 140. *)
Inductive Write (Img : Type) : Type :=
| set (key : string) (image : Img)
| xadd (appMetadata : gmap string Z) (image : Frame Img).
Arguments set {Img}.
Arguments xadd {Img}.

(** The local variables of [predict_publish]; [event_name] is the local
    [eventName]. *)
Record State : Type := mkState {
  index : Z;
  event_manager : EventManager;
  event_name : string;
  event_type : Z;
  app_mode : Z;
  event_type_prev : Z;
  app_mode_prev : Z
}.

(** A loop on a finite list of inputs: it left the loop, an exception was
    raised, or the inputs given are used up while the loop goes on. *)
Inductive Outcome (A : Type) : Type :=
| finished (a : A)
| crashed (e : Error)
| waiting.
Arguments finished {A}.
Arguments crashed {A}.
Arguments waiting {A}.

(** Lines 69-76. *)
Definition start (files : Files) (app_config_dir : string) (event_type app_mode : Z)
    : Result State :=
  event_manager <~ init files app_config_dir event_type;
  match getEventName event_type event_manager with
  | (inl e, _) => raise e
  | (inr eventName, event_manager) =>
      ok (mkState 1 event_manager eventName event_type app_mode event_type app_mode)
  end.

(** One pass of the inner loop, lines 90-102. *)
Definition pass {Img} (image : Img) (p : Poll) (s : State) : Result (State * Write Img) :=
  let app_mode := polled_app_mode p in
  let event_type := polled_event_type p in
  reloaded <~
    (if negb (event_type =? event_type_prev s) || negb (app_mode =? app_mode_prev s) then
       match updateROISettings (polled_files p) event_type (event_manager s) with
       | (inl e, _) => raise e
       | (inr _, event_manager) =>
           match getEventName event_type event_manager with
           | (inl e, _) => raise e
           | (inr eventName, event_manager) => ok (event_manager, eventName)
           end
       end
     else ok (event_manager s, event_name s));
  let '(event_manager, eventName) := reloaded in
  ok (mkState (index s) event_manager eventName event_type app_mode event_type app_mode,
      set eventName image).

(** The inner loop, lines 89-105, on the polls it is given: what it wrote,
    and the state and the polls left when [app_mode != 1]. *)
Fixpoint poll_loop {Img} (image : Img) (polls : list Poll) (s : State)
    : list (Write Img) * Outcome (State * list Poll) :=
  match polls with
  | [] => ([], waiting)
  | p :: polls' =>
      match pass image p s with
      | inl e => ([], crashed e)
      | inr (s', w) =>
          if negb (app_mode s' =? 1) then ([w], finished (s', polls'))
          else let '(ws, outcome) := poll_loop image polls' s' in (w :: ws, outcome)
      end
  end.

Section Detector.

Context `{OpenCV} {Img : Type}.

(** [detector.predict(image, FLAGS.threshold)['boxes']] and
    [np.array(visualize_box_mask(image, results, ...))]. *)
Variables (predict : Img → list Box) (visualize_box_mask : Img → list Box → Img).

(** Lines 121-128. *)
Definition classify_frame (event_type : Z) (boxes : list Box) (im : Img)
    : Method (Output Img) :=
  if event_type =? 2 then monitorVehicle boxes (Some im) 0.5 0.15 true
  else if event_type =? 1 then alertStrangerIntrusion boxes (Some im) 0.5 0.15 true
  else if event_type =? 0 then findEventStat boxes (Some im) 0.5 0.15 true 5
  else findEventStat boxes (Some im) 0.5 0.15 true 5.

(** Lines 107-142: detection, classification and publication of one
    frame. *)
Definition process (image : Img) (s : State) : Result (State * Write Img) :=
  let boxes := predict image in
  let im := visualize_box_mask image boxes in
  match classify_frame (event_type s) boxes im (event_manager s) with
  | (inl e, _) => raise e
  | (inr (img, result, appMetadata), event_manager) =>
      ok (mkState (index s + 1) event_manager (event_name s) (event_type s) (app_mode s)
                  (event_type s) (app_mode_prev s),
          xadd appMetadata img)
  end.

(** The outer loop, lines 80-146, on the results of [capture.read()]
    ([None] when [success] is false) and on the polls: everything written,
    and the state when the loop is left. *)
Fixpoint frames_loop (frames : list (option Img)) (polls : list Poll) (s : State)
    : list (Write Img) * Outcome State :=
  match frames with
  | [] => ([], waiting)
  | None :: _ => ([], finished s)
  | Some image :: frames' =>
      match poll_loop image polls s with
      | (ws, finished (s, polls)) =>
          match process image s with
          | inl e => (ws, crashed e)
          | inr (s, w) =>
              let '(ws', outcome) := frames_loop frames' polls s in
              (ws ++ w :: ws', outcome)
          end
      | (ws, crashed e) => (ws, crashed e)
      | (ws, waiting) => (ws, waiting)
      end
  end.

(** [predict_publish], with the keys and the files read at the start. *)
Definition predict_publish (files : Files) (app_config_dir : string)
    (event_type app_mode : Z) (frames : list (option Img)) (polls : list Poll)
    : list (Write Img) * Outcome State :=
  match start files app_config_dir event_type app_mode with
  | inl e => ([], crashed e)
  | inr s => frames_loop frames polls s
  end.

End Detector.

End app_server.

(** ** The vocabulary of the properties *)

(** A call of one of the three classification methods, with its
    arguments. *)
Inductive Call (Img : Type) : Type :=
| call_findEventStat (np_boxes : list Box) (img : option Img) (threshold alpha : Q)
    (drawContour : bool) (vehicleThres : Z)
| call_alertStrangerIntrusion (np_boxes : list Box) (img : option Img) (threshold alpha : Q)
    (drawContour : bool)
| call_monitorVehicle (np_boxes : list Box) (img : option Img) (threshold alpha : Q)
    (drawContour : bool).
Arguments call_findEventStat {Img}.
Arguments call_alertStrangerIntrusion {Img}.
Arguments call_monitorVehicle {Img}.

Definition perform `{OpenCV} {Img} (c : Call Img) : Method (Output Img) :=
  match c with
  | call_findEventStat np_boxes img threshold alpha drawContour vehicleThres =>
      findEventStat np_boxes img threshold alpha drawContour vehicleThres
  | call_alertStrangerIntrusion np_boxes img threshold alpha drawContour =>
      alertStrangerIntrusion np_boxes img threshold alpha drawContour
  | call_monitorVehicle np_boxes img threshold alpha drawContour =>
      monitorVehicle np_boxes img threshold alpha drawContour
  end.

(** The image a call is given. *)
Definition image_of {Img} (c : Call Img) : option Img :=
  match c with
  | call_findEventStat _ img _ _ _ _ => img
  | call_alertStrangerIntrusion _ img _ _ _ => img
  | call_monitorVehicle _ img _ _ _ => img
  end.

(** A sequence of calls on one object; [None] when one of them raises. *)
Fixpoint perform_all `{OpenCV} {Img} (cs : list (Call Img)) (self : EventManager)
    : option EventManager :=
  match cs with
  | [] => Some self
  | c :: cs' =>
      match perform c self with
      | (inr _, self') => perform_all cs' self'
      | (inl _, _) => None
      end
  end.

(** The event of a call, and the rows of its [np_boxes] that pass the mask
    of the method, at its [threshold]. *)
Definition event_of {Img} (c : Call Img) : Event :=
  match c with
  | call_findEventStat _ _ _ _ _ vehicleThres => EventStat vehicleThres
  | call_alertStrangerIntrusion _ _ _ _ _ => AlertStranger
  | call_monitorVehicle _ _ _ _ _ => MonitorVehicle
  end.

Definition survivors_of {Img} (c : Call Img) : list Box :=
  match c with
  | call_findEventStat np_boxes _ threshold _ _ vehicleThres =>
      mask (EventStat vehicleThres) threshold np_boxes
  | call_alertStrangerIntrusion np_boxes _ threshold _ _ =>
      mask AlertStranger threshold np_boxes
  | call_monitorVehicle np_boxes _ threshold _ _ =>
      mask MonitorVehicle threshold np_boxes
  end.

Definition drawContour_of {Img} (c : Call Img) : bool :=
  match c with
  | call_findEventStat _ _ _ _ drawContour _ => drawContour
  | call_alertStrangerIntrusion _ _ _ _ drawContour => drawContour
  | call_monitorVehicle _ _ _ _ drawContour => drawContour
  end.

(** Every key of the settings is one of the five region names. *)
Definition region_names (d : ROISettings) : Prop :=
  ∀ whichROI vertices, (whichROI, vertices) ∈ d → is_Some (ROIColor !! whichROI).

(** [self.ROIColor[whichROI]] of a region name. *)
Definition displayColor (whichROI : string) : Color :=
  match ROIColor !! whichROI with
  | Some color => color
  | None => (0, 0, 0)
  end.

(** The image the contours of a frame were drawn on. *)
Definition overlay_of {Img} (final : Frame Img) : Canvas Img :=
  match final with
  | plain c => c
  | addWeighted src1 _ _ _ _ => src1
  end.

(** The image the captions and index labels of a frame were written on. *)
Definition text_of {Img} (final : Frame Img) : Canvas Img :=
  match final with
  | plain c => c
  | addWeighted _ _ src2 _ _ => src2
  end.

Section Vocabulary.

Context `{OpenCV}.

(** The rows of [np_boxes] that a region tags. *)
Definition tagged (matches : Contour → Box → bool) (vertices : Contour)
    (np_boxes : list Box) : list Box :=
  if bool_decide (vertices = []) then [] else List.filter (matches vertices) np_boxes.

Definition occupants (vertices : Contour) (np_boxes : list Box) : Z :=
  Z.of_nat (length (tagged inside vertices np_boxes)).

(** What the contour block of a region draws on [overlay_np], given the
    condition of the alert colour on the count of the region. *)
Definition rendering (np_boxes : list Box) (drawContour : bool) (alerting : Z → bool)
    (entry : string * Contour) : list DrawOp :=
  let '(whichROI, vertices) := entry in
  if bool_decide (vertices = []) || negb drawContour then []
  else
    [drawContours vertices
       (if alerting (occupants vertices np_boxes) then alertColor else displayColor whichROI)
       (-1);
     drawContours vertices (255, 255, 255) 4].

(** The tags a region adds to [results]. *)
Definition tagging (np_boxes : list Box) (matches : Contour → Box → bool)
    (entry : Z * (string * Contour)) : list (Box * Z) :=
  (fun box => (box, entry.1 + 1)) <$> tagged matches entry.2.2 np_boxes.

Definition key (entry : Z * (string * Contour)) : string := entry.2.1.

(** The caption block of an event raises nothing on the count of a
    region. *)
Definition captions_return (E : Event) : Prop :=
  ∀ blink np_boxes indexROI cnt, cnt ≠ [] →
    ∃ c, caption E blink indexROI (occupants cnt np_boxes) np_boxes = ok c.

End Vocabulary.



(** The test of line 177. *)
Definition active (entry : Z * (string * Contour)) : bool :=
  negb (bool_decide (entry.2.2 = [])).

(** The locals of the pipeline agree: the object and [event_type_prev]
    hold the event type last polled, and [event_name] is its name. *)
Definition in_step (s : app_server.State) : Prop :=
  eventType (app_server.event_manager s) = app_server.event_type s ∧
  app_server.event_type_prev s = app_server.event_type s ∧
  eventName !! app_server.event_type s = Some (app_server.event_name s).

(** The states of the pipeline: after the start, after a pass of the inner
    loop, after the processing of a frame. *)
Inductive reachable `{OpenCV} {Img : Type} (predict : Img → list Box)
    (visualize_box_mask : Img → list Box → Img) : app_server.State → Prop :=
| reachable_start files app_config_dir event_type app_mode s :
    app_server.start files app_config_dir event_type app_mode = ok s →
    reachable predict visualize_box_mask s
| reachable_pass (image : Img) p s s' (w : app_server.Write Img) :
    reachable predict visualize_box_mask s →
    app_server.pass image p s = ok (s', w) →
    reachable predict visualize_box_mask s'
| reachable_process (image : Img) s s' (w : app_server.Write Img) :
    reachable predict visualize_box_mask s →
    app_server.process predict visualize_box_mask image s = ok (s', w) →
    reachable predict visualize_box_mask s'.

(** The number of frames published on the stream. *)
Definition published {Img} (ws : list (app_server.Write Img)) : Z :=
  Z.of_nat (length (List.filter
                      (fun w => match w with app_server.xadd _ _ => true | _ => false end)
                      ws)).

(** The settings and the detections of the runs below. *)
Module Scene.

Definition square : Contour := [(0, 0); (100, 0); (100, 100); (0, 100)].

(** A strip two pixels high along the top of the frame. *)
Definition strip : Contour := [(0, 0); (640, 0); (640, 2); (0, 2)].

Definition one_square : ROISettings :=
  [("ROI 1"%string, square); ("ROI 2"%string, []); ("ROI 3"%string, []);
   ("ROI 4"%string, []); ("ROI 5"%string, [])].

Definition one_strip : ROISettings :=
  [("ROI 1"%string, strip); ("ROI 2"%string, []); ("ROI 3"%string, []);
   ("ROI 4"%string, []); ("ROI 5"%string, [])].

Definition manager (d : ROISettings) (blink : Z) : EventManager :=
  mkEventManager "config" d blink 0.

(** A car well inside [square]: centre (30, 30). *)
Definition car : Box :=
  mkBox 2 0.9 (literal 10) (literal 10) (literal 50) (literal 50) eq_refl.


(** A car from x = 0.4 to x = 201.6: the centre is (101, 50) in float64,
    to the right of [square]. *)
Definition car_right : Box :=
  mkBox 2 0.9 (literal 0.4) (literal 0) (literal 201.6) (literal 100) eq_refl.

Definition person : Box :=
  mkBox 0 0.9 (literal 10) (literal 10) (literal 50) (literal 50) eq_refl.

End Scene.

(** ** The scenarios of the specification *)

(** A car with score 0.9 and box (10,10)-(50,50) in "ROI 1", under
    [monitorVehicle]: the count of the region is 1, and it is filled in its
    own colour. *)
Example scenario_vehicle_present :
  let run := monitorVehicle (Img := unit) [Scene.car] (Some tt) 0.5 0.15 true
               (Scene.manager Scene.one_square 0) in
  ∃ final tags counts,
    run.1 = ok (final, tags, counts) ∧
    counts !! "ROI 1"%string = Some 1 ∧ tags = [(Scene.car, 1)] ∧
    drawn (overlay_of final) =
      [drawContours Scene.square (0, 255, 0) (-1);
       drawContours Scene.square (255, 255, 255) 4].
Proof. eexists _, _, _. split; [by vm_compute|]. by vm_compute. Qed.

(** A person in the same place, under [alertStrangerIntrusion] with
    [colorBlink < 5]: count 1, alert colour. *)
Example scenario_stranger :
  let run := alertStrangerIntrusion (Img := unit) [Scene.person] (Some tt) 0.5 0.15 true
               (Scene.manager Scene.one_square 0) in
  ∃ final tags counts,
    run.1 = ok (final, tags, counts) ∧
    counts !! "ROI 1"%string = Some 1 ∧
    drawn (overlay_of final) =
      [drawContours Scene.square alertColor (-1);
       drawContours Scene.square (255, 255, 255) 4].
Proof. eexists _, _, _. split; [by vm_compute|]. by vm_compute. Qed.

(** A detection with score 0.4 is masked, wherever it is. *)
Example scenario_low_score :
  let box := mkBox 2 0.4 (literal 10) (literal 10) (literal 50) (literal 50) eq_refl in
  let run := findEventStat (Img := unit) [box] (Some tt) 0.5 0.15 true 5
               (Scene.manager Scene.one_square 0) in
  ∃ final tags counts,
    run.1 = ok (final, tags, counts) ∧ counts !! "ROI 1"%string = Some 0 ∧ tags = [].
Proof. eexists _, _, _. split; [by vm_compute|]. by vm_compute. Qed.

(** ** Properties of the configuration store *)

Lemma eventName_getitem_unknown (eventType' : Z) :
  eventType' ≠ 0 → eventType' ≠ 1 → eventType' ≠ 2 →
  eventName_getitem eventType' = raise (KeyError (pretty eventType')).
Proof.
  intros H0 H1 H2. unfold eventName_getitem, eventName.
  by rewrite !lookup_insert_ne, lookup_empty.
Qed.

(** C9: [getEventName] leaves the object as it is, maps 0, 1 and 2 to
    "EventStat", "AlertStranger" and "MonitorVehicle", and raises
    [KeyError] for every other event type: no name is returned by default. *)
Theorem getEventName_known_or_KeyError (self : EventManager) (eventType' : Z) :
  getEventName eventType' self =
    (if bool_decide (eventType' = 0) then ok "EventStat"%string
     else if bool_decide (eventType' = 1) then ok "AlertStranger"%string
     else if bool_decide (eventType' = 2) then ok "MonitorVehicle"%string
     else raise (KeyError (pretty eventType')),
     self).
Proof.
  unfold getEventName. f_equal.
  repeat case_bool_decide; subst; try reflexivity.
  by apply eventName_getitem_unknown.
Qed.

(** C7: when there is no settings file for the event type, the constructor
    raises [FileNotFoundError] and builds no object, and
    [updateROISettings] raises it and leaves [contourROI] (and
    [colorBlink]) as they were: no empty or default settings are put in
    their place. *)
Theorem missing_settings_file_is_an_error
    (files : Files) (config : string) (eventType' : Z) (name : string) (self : EventManager) :
  eventName !! eventType' = Some name →
  files (settings_path config name) = None →
  configPath self = config →
  init files config eventType' = raise (FileNotFoundError (settings_path config name)) ∧
  (updateROISettings files eventType' self).1
    = raise (FileNotFoundError (settings_path config name)) ∧
  contourROI (updateROISettings files eventType' self).2 = contourROI self ∧
  colorBlink (updateROISettings files eventType' self).2 = colorBlink self.
Proof.
  intros Hname Hfile Hpath.
  unfold init, updateROISettings, eventName_getitem, json_load_open; cbn.
  rewrite Hname; cbn. rewrite Hpath, Hfile. done.
Qed.

Lemma missing_settings_file_is_an_error_witness :
  let self := mkEventManager "config" [("ROI 1"%string, [(0, 0); (9, 0); (9, 9)])] 3 0 in
  let files : Files := fun path =>
    if bool_decide (path = "config/EventStat.json"%string) then Some (contourROI self) else None in
  init files "config" 1 = raise (FileNotFoundError "config/AlertStranger.json") ∧
  (updateROISettings files 1 self).1 = raise (FileNotFoundError "config/AlertStranger.json") ∧
  contourROI (updateROISettings files 1 self).2 = contourROI self ∧
  colorBlink (updateROISettings files 1 self).2 = colorBlink self.
Proof.
  intros self files.
  apply (missing_settings_file_is_an_error files "config" 1 "AlertStranger" self);
    reflexivity.
Defined.

(** ** The loop over the boxes of a region *)

Lemma Qgtb_lt (a b : Q) : Qgtb a b = true ↔ (b < a)%Q.
Proof.
  unfold Qgtb. rewrite negb_true_iff. split.
  - intros Hle. apply Qnot_le_lt. intros Hab.
    apply Qle_bool_iff in Hab. congruence.
  - intros Hlt. destruct (Qle_bool a b) eqn:Hle; [|done].
    apply Qle_bool_iff in Hle. exfalso. by apply (Qlt_not_le b a).
Qed.

Lemma for_each_app {A S} (xs ys : list A) (body : A → S → Result S) (s : S) :
  for_each (xs ++ ys) body s = (s' <~ for_each xs body s; for_each ys body s').
Proof.
  revert s. induction xs as [|x xs IH]; intros s; cbn; [done|].
  destruct (body x s); cbn; [done|]. apply IH.
Qed.

Lemma for_each_preserves {A S} (P : S → Prop) (body : A → S → Result S) (xs : list A) :
  (∀ x s s', body x s = ok s' → P s → P s') →
  ∀ s s', for_each xs body s = ok s' → P s → P s'.
Proof.
  intros Hbody. induction xs as [|x xs IH]; intros s s'; cbn.
  - intros [= <-]. done.
  - destruct (body x s) as [e|s1] eqn:Hx; cbn; [done|].
    intros Hrest Hs. eapply IH; [done|]. by eapply Hbody.
Qed.

Lemma int_of_float_returns (x : float) :
  isfinite x = true → ∃ q, value x = Some q ∧ int_of_float x = ok (int q).
Proof.
  unfold isfinite, int_of_float. destruct (value x) as [q|]; [|done]. by exists q.
Qed.

Section Loop.

Context {Img : Type} `{OpenCV}.

(** The conversions of line 188 raise nothing on a row of the array: the
    test is made, at the truncated centre. *)
Lemma isIntrusion_returns (cnt : Contour) (box : Box) :
  ∃ pointX pointY,
    value (center box).1 = Some pointX ∧ value (center box).2 = Some pointY ∧
    isIntrusion cnt box =
      ok (pointPolygonTest cnt (inject_Z (int pointX), inject_Z (int pointY))).
Proof.
  destruct (andb_prop _ _ (b_finite box)) as [Hx Hy].
  apply int_of_float_returns in Hx as (pointX & Hx & Hix).
  apply int_of_float_returns in Hy as (pointY & Hy & Hiy).
  exists pointX, pointY. unfold isIntrusion, center. cbn.
  split; [done|]. split; [done|]. by rewrite Hix, Hiy.
Qed.

Lemma tag_box_inside (cnt : Contour) (indexROI : Z) (whichROI : string)
    (box : Box) (l : Locals Img) :
  tag_box cnt indexROI whichROI box l =
    if inside cnt box then
      n <~ getitem (varApp l) whichROI;
      ok (mkLocals (results l ++ [(box, indexROI + 1)]) (<[whichROI := n + 1]> (varApp l))
                   (y l) (overlay_np l) (final_np l) (final_np_1 l))
    else ok l.
Proof.
  unfold tag_box, inside.
  by destruct (isIntrusion_returns cnt box) as (pointX & pointY & _ & _ & ->).
Qed.


Lemma tag_boxes (cnt : Contour) (indexROI : Z) (whichROI : string) (np_boxes : list Box) :
  ∀ (l : Locals Img) (n : Z),
    varApp l !! whichROI = Some n →
    for_each np_boxes (tag_box cnt indexROI whichROI) l =
      ok (mkLocals
            (results l ++ ((fun box => (box, indexROI + 1)) <$> List.filter (inside cnt) np_boxes))
            (<[whichROI := n + Z.of_nat (length (List.filter (inside cnt) np_boxes))]> (varApp l))
            (y l) (overlay_np l) (final_np l) (final_np_1 l)).
Proof.
  induction np_boxes as [|box boxes IH]; intros l n Hn; cbn.
  - rewrite app_nil_r, Z.add_0_r, insert_id by done. by destruct l.
  - rewrite tag_box_inside. destruct (inside cnt box); cbn.
    + unfold getitem. rewrite Hn. cbn.
      rewrite (IH _ (n + 1)) by (cbn; apply lookup_insert_eq). cbn.
      rewrite insert_insert_eq, <- app_assoc. cbn.
      do 3 f_equal. lia.
    + by apply IH.
Qed.

Lemma tag_box_images (cnt : Contour) (indexROI : Z) (whichROI : string)
    (box : Box) (l l' : Locals Img) :
  tag_box cnt indexROI whichROI box l = ok l' →
  overlay_np l' = overlay_np l ∧ final_np l' = final_np l ∧ final_np_1 l' = final_np_1 l.
Proof.
  rewrite tag_box_inside. destruct (inside cnt box); [|by intros [= <-]].
  destruct (getitem (varApp l) whichROI); cbn; [done|]. by intros [= <-].
Qed.

End Loop.

(** ** The loop over the regions, when an image is given *)

Section Regions.

Context {Img : Type} `{OpenCV}.
Variables (E : Event) (blink : Z) (np_boxes : list Box) (im : Img)
          (alpha : Q) (drawContour : bool).

(** The caption block of the event raises nothing on the count of a
    region. *)
Hypothesis caption_returns :
  ∀ indexROI cnt, cnt ≠ [] →
    ∃ c, caption E blink indexROI (occupants cnt np_boxes) np_boxes = ok c.

Lemma label_centroid_returns (cnt : Contour) (indexROI : Z) (f : Canvas Img) :
  ∃ f', label_centroid cnt indexROI (Some f) = ok (Some f').
Proof.
  unfold label_centroid.
  destruct (Qneb (m10 (moments cnt)) (m00 (moments cnt)) &&
            Qneb (m01 (moments cnt)) (m00 (moments cnt))) eqn:Hne; [|by eexists].
  apply andb_true_iff in Hne as [Hne _].
  assert (Qeq_bool (m00 (moments cnt)) 0 = false) as Hm00.
  { destruct (Qeq_bool (m00 (moments cnt)) 0) eqn:Hz; [|done].
    apply Qeq_bool_iff in Hz.
    destruct (moments_degenerate cnt Hz) as [Hz10 _].
    unfold Qneb in Hne. apply negb_true_iff in Hne.
    assert (Qeq_bool (m10 (moments cnt)) (m00 (moments cnt)) = true) as Heq.
    { apply Qeq_bool_iff. by rewrite Hz10, Hz. }
    congruence. }
  unfold truediv. rewrite Hm00. cbn. by eexists.
Qed.

Lemma bColor_named (alerting : bool) (whichROI : string) :
  is_Some (ROIColor !! whichROI) →
  bColor alerting whichROI = ok (if alerting then alertColor else displayColor whichROI).
Proof.
  intros [c Hc]. destruct alerting; [done|].
  unfold displayColor. rewrite Hc. unfold bColor, getitem. by rewrite Hc.
Qed.

Lemma write_caption_returns (indexROI : Z) (whichROI : string) (l : Locals Img)
    (n : Z) (f : Canvas Img) (cap : option (bool * string * Q)) :
  varApp l !! whichROI = Some n →
  caption E blink indexROI n np_boxes = ok cap →
  is_Some (ROIColor !! whichROI) →
  final_np l = Some f →
  ∃ y' f',
    write_caption E blink np_boxes indexROI whichROI l =
      ok (mkLocals (results l) (varApp l) y' (overlay_np l) (Some f') (final_np_1 l)).
Proof.
  intros Hn Hcap Hc Hf. unfold write_caption, getitem. rewrite Hn. cbn.
  rewrite Hcap. cbn. destruct cap as [[[alerting stringValue] fontScale]|].
  - rewrite (bColor_named _ _ Hc). cbn. rewrite Hf. cbn. by do 2 eexists.
  - exists (y l), f. destruct l; cbn in *. by subst.
Qed.

Lemma draw_contour_returns (cnt : Contour) (indexROI : Z) (whichROI : string)
    (l : Locals Img) (n : Z) (o f : Canvas Img) :
  varApp l !! whichROI = Some n →
  is_Some (ROIColor !! whichROI) →
  overlay_np l = Some o → final_np l = Some f →
  let o' := mkCanvas (source o)
              (drawn o ++
               if drawContour
               then [drawContours cnt
                       (if alert E blink n then alertColor else displayColor whichROI) (-1);
                     drawContours cnt (255, 255, 255) 4]
               else []) in
  ∃ f',
    draw_contour E blink (Some im) alpha drawContour cnt indexROI whichROI l =
      ok (mkLocals (results l) (varApp l) (y l) (Some o') (Some f')
                   (if drawContour then Some (addWeighted o' alpha f' (1 - alpha) 0)
                    else final_np_1 l)).
Proof.
  intros Hn Hc Ho Hf o'. unfold draw_contour.
  rewrite bool_decide_eq_true_2 by done. cbn. subst o'.
  destruct drawContour; cbn.
  - unfold getitem. rewrite Hn. cbn. rewrite (bColor_named _ _ Hc). cbn.
    rewrite Ho. cbn. rewrite Hf.
    destruct (label_centroid_returns cnt indexROI f) as [f' ->]. cbn.
    rewrite <- app_assoc. cbn. by exists f'.
  - exists f. rewrite app_nil_r. destruct l, o; cbn in *. by subst.
Qed.

Lemma region_active (indexROI : Z) (whichROI : string) (cnt : Contour)
    (l : Locals Img) (o f : Canvas Img) :
  cnt ≠ [] →
  varApp l !! whichROI = Some 0 →
  is_Some (ROIColor !! whichROI) →
  overlay_np l = Some o → final_np l = Some f →
  let o' := mkCanvas (source o) (drawn o ++ rendering np_boxes drawContour (alert E blink) (whichROI, cnt)) in
  ∃ y' f',
    region E blink np_boxes (Some im) alpha drawContour (indexROI, (whichROI, cnt)) l =
      ok (mkLocals
            (results l ++ tagging np_boxes inside (indexROI, (whichROI, cnt)))
            (<[whichROI := occupants cnt np_boxes]> (varApp l))
            y' (Some o') (Some f')
            (if drawContour then Some (addWeighted o' alpha f' (1 - alpha) 0)
             else final_np_1 l)).
Proof.
  intros Hcnt Hn Hc Ho Hf o'. subst o'.
  destruct (caption_returns indexROI cnt Hcnt) as [cap Hcap].
  unfold region, tagging, rendering, occupants, tagged in *.
  rewrite bool_decide_eq_false_2 in * by done.
  rewrite (tag_boxes cnt indexROI whichROI np_boxes l 0 Hn). cbn [bind ok].
  rewrite Z.add_0_l.
  set (n := Z.of_nat (length (List.filter (inside cnt) np_boxes))) in *.
  set (l1 := mkLocals _ _ _ _ _ _).
  destruct (write_caption_returns indexROI whichROI l1 n f cap) as (y' & f1 & ->);
    [apply lookup_insert_eq|done|done|done|].
  cbn [bind ok].
  set (l2 := mkLocals _ _ _ _ _ _).
  destruct (draw_contour_returns cnt indexROI whichROI l2 n o f1) as (f2 & ->);
    [apply lookup_insert_eq|done|done|done|].
  exists y', f2. subst l1 l2.
  rewrite ?bool_decide_eq_false_2 by done. by destruct drawContour.
Qed.

Lemma region_inactive (indexROI : Z) (whichROI : string) (img : option Img) (l : Locals Img) :
  region E blink np_boxes img alpha drawContour (indexROI, (whichROI, [])) l = ok l.
Proof. done. Qed.

(** The loop over regions of distinct names whose counts are still zero:
    it returns, having tagged the boxes of every region, set its count
    and drawn its contour. *)
Lemma regions_loop (entries : list (Z * (string * Contour))) :
  ∀ (l : Locals Img) (o f : Canvas Img) (fr : Frame Img),
    NoDup (key <$> entries) →
    (∀ e, e ∈ entries → is_Some (ROIColor !! key e) ∧ varApp l !! key e = Some 0) →
    overlay_np l = Some o → final_np l = Some f → final_np_1 l = Some fr →
    drawn (overlay_of fr) = drawn o →
    ∃ l' o' f' fr',
      for_each entries (region E blink np_boxes (Some im) alpha drawContour) l = ok l' ∧
      results l' = results l ++ flat_map (tagging np_boxes inside) entries ∧
      (∀ e, e ∈ entries → varApp l' !! key e = Some (occupants e.2.2 np_boxes)) ∧
      (∀ k, k ∉ key <$> entries → varApp l' !! k = varApp l !! k) ∧
      overlay_np l' = Some o' ∧ final_np l' = Some f' ∧ final_np_1 l' = Some fr' ∧
      drawn o' = drawn o ++ flat_map (fun e => rendering np_boxes drawContour (alert E blink) e.2) entries ∧
      drawn (overlay_of fr') = drawn o'.
Proof.
  induction entries as [|[indexROI [whichROI cnt]] entries IH];
    intros l o f fr Hdup Hkeys Ho Hf Hfr Hov.
  - exists l, o, f, fr. cbn. rewrite !app_nil_r.
    repeat split; try done. intros e He. by apply elem_of_nil in He.
  - rewrite fmap_cons in Hdup. apply NoDup_cons in Hdup as [Hfresh Hdup].
    destruct (Hkeys (indexROI, (whichROI, cnt))) as [Hc Hn]; [by left|].
    unfold key in Hc, Hn, Hfresh; cbn in Hc, Hn, Hfresh.
    destruct (decide (cnt = [])) as [->|Hcnt].
    + destruct (IH l o f fr) as (l' & o' & f' & fr' & Hrun & Hres & Hcount & Hrest & Hl');
        [done|by intros e He; apply Hkeys; right|done..|].
      exists l', o', f', fr'. cbn [for_each]. rewrite region_inactive. cbn [bind ok].
      split; [done|]. split; [done|]. split.
      { intros e [->|He]%elem_of_cons; [|by apply Hcount].
        unfold key; cbn. rewrite Hrest by done. by rewrite Hn. }
      split; [|done].
      intros k Hk. apply Hrest. intros Hin. apply Hk. rewrite fmap_cons. by right.
    + destruct (region_active indexROI whichROI cnt l o f Hcnt Hn Hc Ho Hf)
        as (y1 & f1 & Hstep).
      set (o1 := mkCanvas (source o)
                   (drawn o ++ rendering np_boxes drawContour (alert E blink) (whichROI, cnt))) in *.
      set (fr1 := if drawContour then Some (addWeighted o1 alpha f1 (1 - alpha) 0)
                  else final_np_1 l) in *.
      set (l1 := mkLocals _ _ _ _ _ _) in Hstep.
      assert (∃ fr1', fr1 = Some fr1' ∧ drawn (overlay_of fr1') = drawn o1)
        as (fr1' & Hfr1 & Hov1).
      { subst fr1 o1. unfold rendering. rewrite bool_decide_eq_false_2 by done.
        destruct drawContour; cbn.
        - by eexists.
        - exists fr. by rewrite app_nil_r. }
      destruct (IH l1 o1 f1 fr1')
        as (l' & o' & f' & fr' & Hrun & Hres & Hcount & Hrest & Ho' & Hf' & Hfr' & Hd & Hov');
        [done| |done..|].
      { intros e He. destruct (Hkeys e) as [Hce Hne]; [by right|]. split; [done|].
        subst l1; cbn. rewrite lookup_insert_ne; [done|].
        intros ->. apply Hfresh. apply list_elem_of_fmap. by exists e. }
      exists l', o', f', fr'. cbn [for_each]. rewrite Hstep. cbn [bind ok].
      split; [done|]. split.
      { rewrite Hres. subst l1; cbn. by rewrite <- app_assoc. }
      split.
      { intros e [->|He]%elem_of_cons; [|by apply Hcount].
        unfold key; cbn. rewrite Hrest by done. subst l1; cbn. apply lookup_insert_eq. }
      split.
      { intros k Hk. rewrite fmap_cons in Hk. apply not_elem_of_cons in Hk as [Hne Hk].
        rewrite Hrest by done. subst l1; cbn. by rewrite lookup_insert_ne. }
      split; [done|]. split; [done|]. split; [done|]. split; [|done].
      rewrite Hd. subst o1; cbn. by rewrite <- app_assoc.
Qed.

End Regions.

(** ** The methods, when an image is given *)

Lemma flat_map_fmap {A B C} (f : A → B) (g : B → list C) (xs : list A) :
  flat_map g (f <$> xs) = flat_map (fun x => g (f x)) xs.
Proof. induction xs as [|x xs IH]; cbn; [done|]. by rewrite IH. Qed.

Lemma enumerate_values {A} (xs : list A) : (enumerate xs).*2 = xs.
Proof.
  unfold enumerate. rewrite fmap_imap.
  rewrite (imap_ext _ (fun _ x => x) xs) by done.
  rewrite (imap_const id). apply list_fmap_id.
Qed.

Lemma varApp0_named (whichROI : string) :
  is_Some (ROIColor !! whichROI) → varApp0 !! whichROI = Some 0.
Proof.
  intros [c Hc]. unfold ROIColor in Hc. unfold varApp0.
  repeat (destruct (decide (whichROI = _)) as [->|?] in |- *; [by vm_compute|]).
  do 5 (match type of Hc with
        | <[?k := _]> _ !! _ = _ =>
            destruct (decide (k = whichROI)) as [<-|?];
              [by vm_compute|rewrite lookup_insert_ne in Hc by done]
        end).
  by rewrite lookup_empty in Hc.
Qed.

Section Methods.

Context {Img : Type} `{OpenCV}.

Lemma EventStat_captions (vehicleThres : Z) : captions_return (EventStat vehicleThres).
Proof. intros blink np_boxes indexROI cnt _. cbn. destruct (negb _); by eexists. Qed.

Lemma AlertStranger_captions : captions_return AlertStranger.
Proof. intros blink np_boxes indexROI cnt _. cbn. destruct (negb _); by eexists. Qed.

Lemma MonitorVehicle_captions : captions_return MonitorVehicle.
Proof.
  intros blink np_boxes indexROI cnt Hcnt. cbn.
  destruct (Z.eqb_spec (occupants cnt np_boxes) 0) as [|Hn]; [by eexists|].
  destruct (last np_boxes) as [box|] eqn:Hlast; [by eexists|].
  apply last_None in Hlast. subst np_boxes. exfalso. apply Hn.
  unfold occupants, tagged. by destruct (bool_decide _).
Qed.

Lemma classify_with_image (E : Event) (np_boxes : list Box) (im : Img)
    (threshold alpha : Q) (drawContour : bool) (self : EventManager) :
  captions_return E →
  dict_keys_distinct (contourROI self) →
  region_names (contourROI self) →
  let survivors := mask E threshold np_boxes in
  ∃ final tags counts,
    classify E np_boxes (Some im) threshold alpha drawContour self
      = (ok (final, tags, counts), advance self) ∧
    tags = flat_map (tagging survivors inside) (enumerate (contourROI self)) ∧
    (∀ whichROI vertices, (whichROI, vertices) ∈ contourROI self →
       counts !! whichROI = Some (occupants vertices survivors)) ∧
    (∀ whichROI, whichROI ∉ (contourROI self).*1 →
       counts !! whichROI = varApp0 !! whichROI) ∧
    drawn (overlay_of final)
      = flat_map (rendering survivors drawContour (alert E (colorBlink self)))
                 (contourROI self).
Proof.
  intros Hcap Hdup Hnames survivors.
  unfold classify, classify_over. fold survivors.
  set (l := mkLocals _ _ _ _ _ _).
  assert (key <$> enumerate (contourROI self) = (contourROI self).*1) as Hkeys.
  { rewrite <- (enumerate_values (contourROI self)) at 2.
    by rewrite <- list_fmap_compose. }
  destruct (regions_loop E (colorBlink self) survivors im alpha drawContour
              (Hcap (colorBlink self) survivors) (enumerate (contourROI self))
              l (mkCanvas im []) (mkCanvas im []) (plain (mkCanvas im [])))
    as (l' & o' & f' & fr' & Hrun & Hres & Hcount & Hrest & Ho' & Hf' & Hfr' & Hd & Hov');
    [by rewrite Hkeys| |done..|].
  { intros e He.
    assert (e.2 ∈ contourROI self) as Hin.
    { rewrite <- (enumerate_values (contourROI self)). apply list_elem_of_fmap. by exists e. }
    destruct e as [i [k cnt]]. unfold key; cbn in *.
    split; [by eapply Hnames|]. apply varApp0_named. by eapply Hnames. }
  rewrite Hrun. unfold ok at 1. cbv beta iota. rewrite Hfr'. cbn [local bind].
  exists fr', (results l'), (varApp l'). split; [done|]. split; [done|]. split.
  { intros k cnt Hin.
    rewrite <- (enumerate_values (contourROI self)) in Hin.
    apply list_elem_of_fmap in Hin as ([i kc] & Hkc & He). cbn in Hkc. subst kc.
    apply (Hcount _ He). }
  split.
  { intros k Hk. rewrite Hrest by (by rewrite Hkeys). done. }
  rewrite Hov', Hd. cbn.
  rewrite <- (enumerate_values (contourROI self)) at 2.
  by rewrite flat_map_fmap.
Qed.

End Methods.

(** ** Region matching and counting *)

Section Counting.

Context {Img : Type} `{OpenCV}.



End Counting.




(** The centre is that of float64.  For the row from x = 0.4 to
    x = 201.6, the centre of the two floats is a number below 101, which
    truncates to 100, on the boundary of the square; lines 185-186 give
    [pointX = 101.0], the test is made at (101, 50), and the row is not
    counted in the region. *)
Example center_is_rounded_as_float64 :
  (∃ xmin xmax : Q,
     value (b_xmin Scene.car_right) = Some xmin ∧
     value (b_xmax Scene.car_right) = Some xmax ∧
     (xmin + (xmax - xmin) / 2 < 101)%Q ∧ int (xmin + (xmax - xmin) / 2)%Q = 100) ∧
  value (center Scene.car_right).1 = Some 101%Q ∧
  value (center Scene.car_right).2 = Some 50%Q ∧
  inside Scene.square Scene.car_right = false ∧
  ∃ final counts,
    (monitorVehicle (Img := unit) [Scene.car_right] (Some tt) 0.5 0.15 true
       (Scene.manager Scene.one_square 0)).1 = ok (final, [], counts) ∧
    counts !! "ROI 1"%string = Some 0.
Proof.
  split.
  { eexists _, _. split; [by vm_compute|]. split; [by vm_compute|]. by vm_compute. }
  split; [by vm_compute|]. split; [by vm_compute|]. split; [by vm_compute|].
  eexists _, _. split; by vm_compute.
Qed.

(** ** The mask over the detections *)

Lemma mask_filter (E : Event) (threshold : Q) (np_boxes : list Box) :
  mask E threshold np_boxes = List.filter (expect_boxes E threshold) np_boxes.
Proof. by destruct np_boxes. Qed.

Lemma filter_filter_same {A} (p : A → bool) (xs : list A) :
  List.filter p (List.filter p xs) = List.filter p xs.
Proof.
  induction xs as [|x xs IH]; cbn; [done|].
  destruct (p x) eqn:Hx; cbn; [|done]. by rewrite Hx, IH.
Qed.

Lemma elem_of_mask (E : Event) (threshold : Q) (np_boxes : list Box) (box : Box) :
  box ∈ mask E threshold np_boxes ↔ box ∈ np_boxes ∧ expect_boxes E threshold box = true.
Proof. rewrite mask_filter, !list_elem_of_In. apply filter_In. Qed.

Section Filtering.

Context {Img : Type} `{OpenCV}.

Lemma classify_mask (E : Event) (np_boxes : list Box) (img : option Img)
    (threshold alpha : Q) (drawContour : bool) (self : EventManager) :
  classify E np_boxes img threshold alpha drawContour self =
  classify E (mask E threshold np_boxes) img threshold alpha drawContour self.
Proof.
  unfold classify, classify_over.
  by rewrite (mask_filter E threshold (mask _ _ _)), mask_filter, filter_filter_same.
Qed.

(** C2: the rows each method keeps are exactly those of [np_boxes] with
    [score > threshold] and, for [findEventStat], [class > -1]; for
    [alertStrangerIntrusion], [class == 0] (person); for
    [monitorVehicle], [class] 1, 2 or 3 (bicycle, car, motorcycle).  The
    mask is applied before the loop over the regions, and a call on
    [np_boxes] is the call on the rows kept: the other rows change
    neither counts, nor tags, nor the frame. *)
Theorem only_expected_boxes_are_classified (np_boxes : list Box) (threshold : Q)
    (vehicleThres : Z) :
  (∀ box, box ∈ mask (EventStat vehicleThres) threshold np_boxes ↔
          box ∈ np_boxes ∧ (threshold < b_score box)%Q ∧ (-1 < b_class box)%Q) ∧
  (∀ box, box ∈ mask AlertStranger threshold np_boxes ↔
          box ∈ np_boxes ∧ (threshold < b_score box)%Q ∧ b_class box == 0) ∧
  (∀ box, box ∈ mask MonitorVehicle threshold np_boxes ↔
          box ∈ np_boxes ∧ (threshold < b_score box)%Q ∧
          (b_class box == 1 ∨ b_class box == 2 ∨ b_class box == 3)) ∧
  objects !! 0 = Some "person"%string ∧ objects !! 1 = Some "bicycle"%string ∧
  objects !! 2 = Some "car"%string ∧ objects !! 3 = Some "motorcycle"%string ∧
  ∀ (img : option Img) (alpha : Q) (drawContour : bool) (self : EventManager),
    findEventStat np_boxes img threshold alpha drawContour vehicleThres self =
      findEventStat (mask (EventStat vehicleThres) threshold np_boxes)
                    img threshold alpha drawContour vehicleThres self ∧
    alertStrangerIntrusion np_boxes img threshold alpha drawContour self =
      alertStrangerIntrusion (mask AlertStranger threshold np_boxes)
                             img threshold alpha drawContour self ∧
    monitorVehicle np_boxes img threshold alpha drawContour self =
      monitorVehicle (mask MonitorVehicle threshold np_boxes)
                     img threshold alpha drawContour self.
Proof.
  split; [|split; [|split]].
  - intros box. rewrite elem_of_mask. cbn.
    by rewrite andb_true_iff, !Qgtb_lt.
  - intros box. rewrite elem_of_mask. cbn.
    by rewrite andb_true_iff, Qgtb_lt, Qeq_bool_iff.
  - intros box. rewrite elem_of_mask. cbn.
    rewrite andb_true_iff, !orb_true_iff, Qgtb_lt, !Qeq_bool_iff. tauto.
  - repeat (split; [done|]).
    intros img alpha drawContour self. repeat split; apply classify_mask.
Qed.

End Filtering.

(** ** Calls without an image, and the blink counter *)

Section Blink.

Context {Img : Type} `{OpenCV}.

Lemma region_without_image (E : Event) (blink : Z) (np_boxes : list Box)
    (alpha : Q) (drawContour : bool) (entry : Z * (string * Contour)) (l l' : Locals Img) :
  region E blink np_boxes None alpha drawContour entry l = ok l' →
  final_np_1 l = None → final_np_1 l' = None.
Proof.
  destruct entry as [indexROI [whichROI vertices]]. unfold region.
  case_bool_decide; [by intros [= <-]|].
  destruct (for_each np_boxes (tag_box vertices indexROI whichROI) l) as [e|l1] eqn:Htag;
    cbn; [done|].
  intros Hrest Hnone.
  assert (final_np_1 l1 = None) as Hl1.
  { eapply (for_each_preserves (fun s : Locals Img => final_np_1 s = None)); [|done..].
    intros box s s' Hbox Hs. apply tag_box_images in Hbox as (_ & _ & ->). done. }
  unfold write_caption in Hrest.
  destruct (getitem (varApp l1) whichROI) as [e|n]; cbn in Hrest; [done|].
  destruct (caption E blink indexROI n np_boxes) as [e|[[[a s] sc]|]]; cbn in Hrest; [done|..].
  - destruct (bColor a whichROI) as [e|color]; cbn in Hrest; [done|].
    destruct (draw "final_np" (final_np l1) _) as [e|f]; cbn in Hrest; [done|].
    by injection Hrest as <-.
  - by injection Hrest as <-.
Qed.

Lemma classify_without_image (E : Event) (np_boxes : list Box)
    (threshold alpha : Q) (drawContour : bool) (self : EventManager) :
  ∃ e, (classify (Img := Img) E np_boxes None threshold alpha drawContour self).1 = raise e.
Proof.
  unfold classify, classify_over.
  destruct (for_each _ _ _) as [e|l] eqn:Hloop; [by eexists|].
  assert (final_np_1 l = None) as ->; [|by eexists].
  eapply (for_each_preserves (fun s : Locals Img => final_np_1 s = None)); [|done..].
  intros entry s s'. apply region_without_image.
Qed.

(** C10: a call of any of the three methods with [img = None], the
    default of the parameter, raises an exception and returns nothing:
    the images are bound only when [img] is not [None], and
    [final_np_1] is returned in every case. *)
Theorem no_image_no_result (np_boxes : list Box) (threshold alpha : Q)
    (drawContour : bool) (vehicleThres : Z) (self : EventManager) :
  (∃ e, (findEventStat (Img := Img) np_boxes None threshold alpha drawContour
                       vehicleThres self).1 = raise e) ∧
  (∃ e, (alertStrangerIntrusion (Img := Img) np_boxes None threshold alpha
                                drawContour self).1 = raise e) ∧
  (∃ e, (monitorVehicle (Img := Img) np_boxes None threshold alpha
                        drawContour self).1 = raise e).
Proof. repeat split; apply classify_without_image. Qed.

Lemma classify_object (E : Event) (np_boxes : list Box) (img : option Img)
    (threshold alpha : Q) (drawContour : bool) (self self' : EventManager)
    (out : Output Img) :
  classify E np_boxes img threshold alpha drawContour self = (ok out, self') →
  self' = advance self.
Proof.
  unfold classify, classify_over.
  destruct (for_each _ _ _) as [e|l]; [done|]. by intros [= _ <-].
Qed.

Lemma perform_object (c : Call Img) (self self' : EventManager) (out : Output Img) :
  perform c self = (ok out, self') → self' = advance self.
Proof. destruct c; apply classify_object. Qed.

Lemma advance_colorBlink (self : EventManager) :
  0 ≤ colorBlink self ≤ 9 →
  colorBlink (advance self) = (colorBlink self + 1) mod 10.
Proof.
  intros Hb. unfold advance. cbn.
  destruct (Z.eqb_spec (colorBlink self + 1) 10) as [Heq|Hne]; cbn.
  - by rewrite Heq.
  - rewrite Z.mod_small; lia.
Qed.

Lemma perform_all_colorBlink (cs : list (Call Img)) :
  ∀ self self', 0 ≤ colorBlink self ≤ 9 →
    perform_all cs self = Some self' →
    colorBlink self' = (colorBlink self + Z.of_nat (length cs)) mod 10.
Proof.
  induction cs as [|c cs IH]; intros self self' Hb; cbn [perform_all length].
  - intros [= <-]. rewrite Z.add_0_r, Z.mod_small; lia.
  - destruct (perform c self) as [[e|out] self1] eqn:Hc; [done|].
    apply perform_object in Hc as ->. intros Hrest.
    assert (colorBlink (advance self) = (colorBlink self + 1) mod 10) as Hadv
      by by apply advance_colorBlink.
    assert (0 ≤ colorBlink (advance self) ≤ 9) as Hb'.
    { rewrite Hadv. pose proof (Z.mod_pos_bound (colorBlink self + 1) 10). lia. }
    rewrite (IH _ _ Hb' Hrest), Hadv.
    rewrite Zplus_mod_idemp_l. f_equal. lia.
Qed.

Lemma perform_with_image (c : Call Img) (self : EventManager) :
  image_of c ≠ None →
  dict_keys_distinct (contourROI self) → region_names (contourROI self) →
  ∃ out, perform c self = (ok out, advance self).
Proof.
  intros Himg Hdup Hnames.
  destruct c as [np_boxes [im|] threshold alpha drawContour vehicleThres
                |np_boxes [im|] threshold alpha drawContour
                |np_boxes [im|] threshold alpha drawContour]; try done; cbn.
  - destruct (classify_with_image (EventStat vehicleThres) np_boxes im threshold alpha
                drawContour self (EventStat_captions _) Hdup Hnames)
      as (final & tags & counts & Hcall & _). by eexists.
  - destruct (classify_with_image AlertStranger np_boxes im threshold alpha
                drawContour self AlertStranger_captions Hdup Hnames)
      as (final & tags & counts & Hcall & _). by eexists.
  - destruct (classify_with_image MonitorVehicle np_boxes im threshold alpha
                drawContour self MonitorVehicle_captions Hdup Hnames)
      as (final & tags & counts & Hcall & _). by eexists.
Qed.

(** X23: a call of any of the three methods that returns advances
    [colorBlink] by exactly 1 modulo 10, whatever the event, the
    detections and the regions; a call that is given an image, on
    settings whose keys are region names, does return; after ten calls
    that return, [colorBlink] has its original value, and it stays within
    0..9. *)
Theorem colorBlink_advances_when_the_call_returns (self : EventManager) :
  0 ≤ colorBlink self ≤ 9 →
  (∀ (c : Call Img) out self',
     perform c self = (ok out, self') →
     colorBlink self' = (colorBlink self + 1) mod 10 ∧ 0 ≤ colorBlink self' ≤ 9) ∧
  (∀ c : Call Img,
     image_of c ≠ None →
     dict_keys_distinct (contourROI self) → region_names (contourROI self) →
     ∃ out, perform c self = (ok out, advance self)) ∧
  (∀ (cs : list (Call Img)) self',
     length cs = 10%nat → perform_all cs self = Some self' →
     colorBlink self' = colorBlink self).
Proof.
  intros Hb. split; [|split].
  - intros c out self' Hc. apply perform_object in Hc as ->.
    rewrite advance_colorBlink by done.
    pose proof (Z.mod_pos_bound (colorBlink self + 1) 10). lia.
  - intros c. apply perform_with_image.
  - intros cs self' Hlen Hrun.
    rewrite (perform_all_colorBlink cs self self' Hb Hrun), Hlen.
    change (Z.of_nat 10) with (1 * 10). rewrite Z.mod_add by done.
    apply Z.mod_small. lia.
Qed.

End Blink.

Lemma colorBlink_advances_when_the_call_returns_witness :
  let self := Scene.manager Scene.one_square 7 in
  let c := call_monitorVehicle (Img := unit) [Scene.car] (Some tt) 0.5 0.15 true in
  ∃ self', perform_all (replicate 10 c) self = Some self' ∧ colorBlink self' = colorBlink self.
Proof.
  intros self c.
  destruct (colorBlink_advances_when_the_call_returns (Img := unit) self) as (_ & _ & Hten);
    [by vm_compute|].
  destruct (perform_all (replicate 10 c) self) as [self'|] eqn:Hrun; [|by vm_compute in Hrun].
  exists self'. split; [done|]. by apply (Hten (replicate 10 c) self').
Defined.

(** C4: the code misses the claim when no image is given.
    [findEventStat] called with [img = None], the default of the
    parameter, on a detection inside a region raises [UnboundLocalError]
    at the caption of the region (line 211), before lines 233-235 are
    reached: [colorBlink] is still 0 afterwards, not advanced by 1. *)
Lemma colorBlink_not_advanced_without_image :
  let self := Scene.manager Scene.one_square 0 in
  let call := findEventStat (Img := unit) [Scene.car] None 0.5 0.15 true 5 in
  (call self).1 = raise (UnboundLocalError "final_np") ∧
  colorBlink (call self).2 = 0 ∧
  colorBlink (call self).2 ≠ (colorBlink self + 1) mod 10.
Proof. by vm_compute. Qed.

(** ** The colour of a region *)

Section Colours.

Context {Img : Type} `{OpenCV}.

Lemma occupants_nonneg (vertices : Contour) (np_boxes : list Box) :
  0 ≤ occupants vertices np_boxes.
Proof. unfold occupants. lia. Qed.

Lemma rendering_ext (np_boxes : list Box) (drawContour : bool)
    (alerting alerting' : Z → bool) (entry : string * Contour) :
  (∀ n, 0 ≤ n → alerting n = alerting' n) →
  rendering np_boxes drawContour alerting entry
    = rendering np_boxes drawContour alerting' entry.
Proof.
  intros Hext. destruct entry as [whichROI vertices]. unfold rendering.
  by rewrite (Hext _ (occupants_nonneg vertices np_boxes)).
Qed.

Lemma classify_rendering (E : Event) (alerting : Z → bool) (np_boxes : list Box) (im : Img)
    (threshold alpha : Q) (drawContour : bool) (self : EventManager) :
  captions_return E →
  (∀ n, 0 ≤ n → alert E (colorBlink self) n = alerting n) →
  dict_keys_distinct (contourROI self) →
  region_names (contourROI self) →
  ∃ out,
    classify E np_boxes (Some im) threshold alpha drawContour self = (ok out, advance self) ∧
    drawn (overlay_of out.1.1)
      = flat_map (rendering (mask E threshold np_boxes) drawContour alerting)
                 (contourROI self).
Proof.
  intros Hcap Halert Hdup Hnames.
  destruct (classify_with_image E np_boxes im threshold alpha drawContour self
              Hcap Hdup Hnames) as (final & tags & counts & Hcall & _ & _ & _ & Hdrawn).
  exists (final, tags, counts). split; [done|]. cbn. rewrite Hdrawn.
  apply flat_map_ext. intros entry. by apply rendering_ext.
Qed.

(** C3: given an image and settings whose keys are region names, each
    method returns a frame on whose overlay every non-empty region has
    been filled, in the order of the settings, in the alert colour
    (0, 0, 255) exactly when, for [findEventStat], its count is at
    least [vehicleThres] and [colorBlink < 5]; for
    [alertStrangerIntrusion], its count is positive and
    [colorBlink < 5]; for [monitorVehicle], its count is zero and
    [colorBlink < 5]; and in the colour [ROIColor] gives to its name
    otherwise, which is never the alert colour. *)
Theorem region_filled_in_alert_colour (self : EventManager) (np_boxes : list Box)
    (im : Img) (threshold alpha : Q) (drawContour : bool) (vehicleThres : Z) :
  dict_keys_distinct (contourROI self) →
  region_names (contourROI self) →
  (∃ out,
     findEventStat np_boxes (Some im) threshold alpha drawContour vehicleThres self
       = (ok out, advance self) ∧
     drawn (overlay_of out.1.1)
       = flat_map (rendering (mask (EventStat vehicleThres) threshold np_boxes) drawContour
                     (fun n => bool_decide (vehicleThres ≤ n ∧ colorBlink self < 5)))
                  (contourROI self)) ∧
  (∃ out,
     alertStrangerIntrusion np_boxes (Some im) threshold alpha drawContour self
       = (ok out, advance self) ∧
     drawn (overlay_of out.1.1)
       = flat_map (rendering (mask AlertStranger threshold np_boxes) drawContour
                     (fun n => bool_decide (0 < n ∧ colorBlink self < 5)))
                  (contourROI self)) ∧
  (∃ out,
     monitorVehicle np_boxes (Some im) threshold alpha drawContour self
       = (ok out, advance self) ∧
     drawn (overlay_of out.1.1)
       = flat_map (rendering (mask MonitorVehicle threshold np_boxes) drawContour
                     (fun n => bool_decide (n = 0 ∧ colorBlink self < 5)))
                  (contourROI self)) ∧
  (∀ whichROI color, ROIColor !! whichROI = Some color →
     displayColor whichROI = color ∧ color ≠ alertColor) ∧
  (∀ (alerting : Z → bool) whichROI vertices, vertices ≠ [] →
     rendering (mask MonitorVehicle threshold np_boxes) true alerting (whichROI, vertices) =
       [drawContours vertices
          (if alerting (occupants vertices (mask MonitorVehicle threshold np_boxes))
           then alertColor else displayColor whichROI) (-1);
        drawContours vertices (255, 255, 255) 4]).
Proof.
  intros Hdup Hnames. split; [|split; [|split; [|split]]].
  - apply classify_rendering; [apply EventStat_captions| |done..].
    intros n Hn. cbn.
    destruct (Z.ltb_spec (colorBlink self) 5), (Z.geb_spec n vehicleThres);
      cbn; symmetry; (by apply bool_decide_eq_true_2; lia)
                     || (by apply bool_decide_eq_false_2; lia).
  - apply classify_rendering; [apply AlertStranger_captions| |done..].
    intros n Hn. cbn.
    destruct (Z.ltb_spec (colorBlink self) 5), (Z.eqb_spec n 0);
      cbn; symmetry; (by apply bool_decide_eq_true_2; lia)
                     || (by apply bool_decide_eq_false_2; lia).
  - apply classify_rendering; [apply MonitorVehicle_captions| |done..].
    intros n Hn. cbn.
    destruct (Z.ltb_spec (colorBlink self) 5), (Z.eqb_spec n 0);
      cbn; symmetry; (by apply bool_decide_eq_true_2; lia)
                     || (by apply bool_decide_eq_false_2; lia).
  - intros whichROI color Hc. unfold displayColor. rewrite Hc. split; [done|].
    unfold ROIColor in Hc.
    do 5 (match type of Hc with
          | <[?k := _]> _ !! _ = _ =>
              destruct (decide (k = whichROI)) as [<-|?];
                [rewrite lookup_insert_eq in Hc; by injection Hc as <-
                |rewrite lookup_insert_ne in Hc by done]
          end).
    by rewrite lookup_empty in Hc.
  - intros alerting whichROI vertices Hv. unfold rendering.
    by rewrite bool_decide_eq_false_2.
Qed.

End Colours.

Lemma region_filled_in_alert_colour_witness :
  let self := Scene.manager Scene.one_square 0 in
  ∃ out,
    monitorVehicle (Img := unit) [Scene.person] (Some tt) 0.5 0.15 true self
      = (ok out, advance self) ∧
    drawn (overlay_of out.1.1)
      = [drawContours Scene.square alertColor (-1);
         drawContours Scene.square (255, 255, 255) 4].
Proof.
  intros self.
  destruct (region_filled_in_alert_colour (Img := unit) self [Scene.person] tt 0.5 0.15 true 5)
    as (_ & _ & (out & Hcall & Hdrawn) & _).
  - unfold dict_keys_distinct. apply (bool_decide_unpack _). by vm_compute.
  - intros whichROI vertices Hin. unfold self, Scene.manager, Scene.one_square in Hin.
    cbn in Hin.
    repeat (apply elem_of_cons in Hin as [[= -> ->]|Hin];
            [apply (bool_decide_unpack _); by vm_compute|]).
    by apply elem_of_nil in Hin.
  - exists out. split; [done|]. rewrite Hdrawn. by vm_compute.
Defined.

(** ** Regions without vertices *)

Lemma for_each_filter {A S} (p : A → bool) (body : A → S → Result S) (xs : list A) :
  (∀ x s, p x = false → body x s = ok s) →
  ∀ s, for_each (List.filter p xs) body s = for_each xs body s.
Proof.
  intros Hskip. induction xs as [|x xs IH]; intros s; cbn; [done|].
  destruct (p x) eqn:Hx; cbn.
  - destruct (body x s); cbn; [done|]. apply IH.
  - rewrite (Hskip x s Hx). cbn. apply IH.
Qed.

Section Inactive.

Context {Img : Type} `{OpenCV}.

Lemma classify_active (E : Event) (np_boxes : list Box) (img : option Img)
    (threshold alpha : Q) (drawContour : bool) (self : EventManager) :
  classify E np_boxes img threshold alpha drawContour self =
  classify_over (List.filter active (enumerate (contourROI self)))
                E np_boxes img threshold alpha drawContour self.
Proof.
  unfold classify, classify_over. rewrite for_each_filter; [done|].
  intros [indexROI [whichROI vertices]] l. unfold active. cbn.
  rewrite negb_false_iff. intros ->%bool_decide_eq_true. done.
Qed.

Lemma classify_inactive_count (E : Event) (np_boxes : list Box) (im : Img)
    (threshold alpha : Q) (drawContour : bool) (self : EventManager) (whichROI : string) :
  captions_return E →
  dict_keys_distinct (contourROI self) →
  region_names (contourROI self) →
  (whichROI, []) ∈ contourROI self →
  ∃ final tags counts,
    classify E np_boxes (Some im) threshold alpha drawContour self
      = (ok (final, tags, counts), advance self) ∧
    counts !! whichROI = Some 0.
Proof.
  intros Hcap Hdup Hnames Hin.
  destruct (classify_with_image E np_boxes im threshold alpha drawContour self
              Hcap Hdup Hnames) as (final & tags & counts & Hcall & _ & Hcounts & _).
  exists final, tags, counts. split; [done|]. by rewrite (Hcounts _ _ Hin).
Qed.

(** C8: a region whose list of vertices is empty is skipped: each method
    is the loop over the regions with vertices only (with the indices
    they have among all regions), so that such a region adds no tag and
    no drawing; and in a call that is given an image, on settings whose
    keys are region names, its count is returned as 0. *)
Theorem empty_region_is_skipped (self : EventManager) (np_boxes : list Box)
    (threshold alpha : Q) (drawContour : bool) (vehicleThres : Z) (whichROI : string) :
  dict_keys_distinct (contourROI self) →
  region_names (contourROI self) →
  (whichROI, []) ∈ contourROI self →
  (∀ indexROI,
     (indexROI, (whichROI, [])) ∉ List.filter active (enumerate (contourROI self))) ∧
  (∀ img : option Img,
     findEventStat np_boxes img threshold alpha drawContour vehicleThres self =
       classify_over (List.filter active (enumerate (contourROI self)))
         (EventStat vehicleThres) np_boxes img threshold alpha drawContour self ∧
     alertStrangerIntrusion np_boxes img threshold alpha drawContour self =
       classify_over (List.filter active (enumerate (contourROI self)))
         AlertStranger np_boxes img threshold alpha drawContour self ∧
     monitorVehicle np_boxes img threshold alpha drawContour self =
       classify_over (List.filter active (enumerate (contourROI self)))
         MonitorVehicle np_boxes img threshold alpha drawContour self) ∧
  (∀ im : Img,
     (∃ final tags counts,
        findEventStat np_boxes (Some im) threshold alpha drawContour vehicleThres self
          = (ok (final, tags, counts), advance self) ∧ counts !! whichROI = Some 0) ∧
     (∃ final tags counts,
        alertStrangerIntrusion np_boxes (Some im) threshold alpha drawContour self
          = (ok (final, tags, counts), advance self) ∧ counts !! whichROI = Some 0) ∧
     (∃ final tags counts,
        monitorVehicle np_boxes (Some im) threshold alpha drawContour self
          = (ok (final, tags, counts), advance self) ∧ counts !! whichROI = Some 0)).
Proof.
  intros Hdup Hnames Hin. split; [|split].
  - intros indexROI Hmem. apply list_elem_of_In, filter_In in Hmem as [_ Hact].
    by vm_compute in Hact.
  - intros img. repeat split; apply classify_active.
  - intros im. repeat split.
    + by apply classify_inactive_count; [apply EventStat_captions|..].
    + by apply classify_inactive_count; [apply AlertStranger_captions|..].
    + by apply classify_inactive_count; [apply MonitorVehicle_captions|..].
Qed.

End Inactive.

Lemma empty_region_is_skipped_witness :
  let self := Scene.manager Scene.one_square 0 in
  ∃ final tags counts,
    monitorVehicle (Img := unit) [Scene.car] (Some tt) 0.5 0.15 true self
      = (ok (final, tags, counts), advance self) ∧ counts !! "ROI 2"%string = Some 0.
Proof.
  intros self.
  destruct (empty_region_is_skipped (Img := unit) self [Scene.car] 0.5 0.15 true 5 "ROI 2")
    as (_ & _ & Hcount).
  - unfold dict_keys_distinct. apply (bool_decide_unpack _). by vm_compute.
  - intros whichROI vertices Hin. unfold self, Scene.manager, Scene.one_square in Hin.
    cbn in Hin.
    repeat (apply elem_of_cons in Hin as [[= -> ->]|Hin];
            [apply (bool_decide_unpack _); by vm_compute|]).
    by apply elem_of_nil in Hin.
  - unfold self, Scene.manager, Scene.one_square. cbn. set_solver.
  - apply (Hcount tt).
Defined.

(** ** Switching the event type *)

Section Switch.

Context {Img : Type} `{OpenCV}.

(** C6: when the settings file of event type B exists,
    [updateROISettings(B)] makes [contourROI] the content of that file
    and nothing else: the object afterwards is the same whatever
    settings (and event type) it held before, so that a call of a
    classification method after the switch is the call on an object that
    holds the settings of B only. *)
Theorem updateROISettings_replaces_the_settings (files : Files) (eventTypeB : Z)
    (name : string) (settingsB : ROISettings) (self : EventManager) :
  eventName !! eventTypeB = Some name →
  files (settings_path (configPath self) name) = Some settingsB →
  let switched :=
    mkEventManager (configPath self) settingsB (colorBlink self) eventTypeB in
  updateROISettings files eventTypeB self = (ok tt, switched) ∧
  contourROI (updateROISettings files eventTypeB self).2 = settingsB ∧
  (∀ settingsA eventTypeA,
     updateROISettings files eventTypeB
       (mkEventManager (configPath self) settingsA (colorBlink self) eventTypeA)
     = updateROISettings files eventTypeB self) ∧
  (∀ c : Call Img,
     perform c (updateROISettings files eventTypeB self).2 = perform c switched).
Proof.
  intros Hname Hfile switched.
  assert (∀ settingsA eventTypeA,
            updateROISettings files eventTypeB
              (mkEventManager (configPath self) settingsA (colorBlink self) eventTypeA)
            = (ok tt, switched)) as Hany.
  { intros settingsA eventTypeA.
    unfold updateROISettings, eventName_getitem, json_load_open. cbn.
    rewrite Hname. cbn. by rewrite Hfile. }
  assert (updateROISettings files eventTypeB self = (ok tt, switched)) as Hself.
  { rewrite <- (Hany (contourROI self) (eventType self)). by destruct self. }
  split; [done|]. split; [by rewrite Hself|]. split.
  - intros settingsA eventTypeA. by rewrite Hany, Hself.
  - intros c. by rewrite Hself.
Qed.

End Switch.

Lemma updateROISettings_replaces_the_settings_witness :
  let files : Files := fun path =>
    if bool_decide (path = "config/MonitorVehicle.json"%string) then Some Scene.one_strip
    else if bool_decide (path = "config/EventStat.json"%string) then Some Scene.one_square
    else None in
  let self := Scene.manager Scene.one_square 4 in
  contourROI (updateROISettings files 2 self).2 = Scene.one_strip ∧
  ∀ c : Call unit,
    perform c (updateROISettings files 2 self).2
      = perform c (mkEventManager "config" Scene.one_strip 4 2).
Proof.
  intros files self.
  destruct (updateROISettings_replaces_the_settings (Img := unit) files 2 "MonitorVehicle"
              Scene.one_strip self) as (_ & Hsettings & _ & Hcalls); [done..|].
  split; [exact Hsettings|exact Hcalls].
Defined.

(** ** The index label of a region *)

(** C5 fails on the code: the strip has area ([m00] is 1280) and its
    centroid is (320, 1), but because [m01] equals [m00] the guard of line
    226 is false and no index label is written: nothing at all is written
    on the image of the texts, whereas the square gets its label "1" at
    its centroid (50, 50). *)
Lemma strip_with_area_gets_no_label :
  m00 (moments Scene.strip) == 1280 ∧
  m10 (moments Scene.strip) / m00 (moments Scene.strip) == 320 ∧
  m01 (moments Scene.strip) / m00 (moments Scene.strip) == 1 ∧
  (∃ final tags counts,
     (findEventStat (Img := unit) [] (Some tt) 0.5 0.15 true 5
        (Scene.manager Scene.one_strip 0)).1 = ok (final, tags, counts) ∧
     drawn (overlay_of final) =
       [drawContours Scene.strip (0, 255, 0) (-1);
        drawContours Scene.strip (255, 255, 255) 4] ∧
     drawn (text_of final) = []) ∧
  (∃ final tags counts,
     (findEventStat (Img := unit) [] (Some tt) 0.5 0.15 true 5
        (Scene.manager Scene.one_square 0)).1 = ok (final, tags, counts) ∧
     drawn (text_of final) = [putText "1" (50, 50) 0.7 (0, 0, 0) 2]).
Proof.
  split; [by vm_compute|]. split; [by vm_compute|]. split; [by vm_compute|].
  split; eexists _, _, _; (split; [by vm_compute|by vm_compute]).
Qed.

(** ** Settings with a key that is not a region name *)

Lemma varApp0_unnamed (whichROI : string) :
  ROIColor !! whichROI = None → varApp0 !! whichROI = None.
Proof.
  intros Hc. unfold ROIColor in Hc. unfold varApp0.
  do 5 (match type of Hc with
        | <[?k := _]> _ !! _ = _ =>
            destruct (decide (k = whichROI)) as [<-|?];
              [by vm_compute in Hc|rewrite lookup_insert_ne in Hc by done]
        end).
  by rewrite !lookup_insert_ne, lookup_empty.
Qed.

Lemma enumerate_app {A} (xs ys : list A) :
  enumerate (xs ++ ys)
    = enumerate xs ++ imap (fun i x => (Z.of_nat (length xs + i), x)) ys.
Proof. unfold enumerate. by rewrite imap_app. Qed.

Section Foreign.

Context {Img : Type} `{OpenCV}.

Lemma tag_boxes_missing_key (cnt : Contour) (indexROI : Z) (whichROI : string)
    (np_boxes : list Box) (l : Locals Img) :
  varApp l !! whichROI = None →
  for_each np_boxes (tag_box cnt indexROI whichROI) l = ok l ∨
  for_each np_boxes (tag_box cnt indexROI whichROI) l = raise (KeyError whichROI).
Proof.
  intros Hk. induction np_boxes as [|box boxes IH]; cbn; [by left|].
  rewrite tag_box_inside. destruct (inside cnt box); cbn; [|done].
  unfold getitem. rewrite Hk. by right.
Qed.

Lemma region_missing_key (E : Event) (blink : Z) (np_boxes : list Box) (img : option Img)
    (alpha : Q) (drawContour : bool) (indexROI : Z) (whichROI : string) (cnt : Contour)
    (l : Locals Img) :
  cnt ≠ [] → varApp l !! whichROI = None →
  region E blink np_boxes img alpha drawContour (indexROI, (whichROI, cnt)) l
    = raise (KeyError whichROI).
Proof.
  intros Hcnt Hk. unfold region. rewrite bool_decide_eq_false_2 by done.
  destruct (tag_boxes_missing_key cnt indexROI whichROI np_boxes l Hk) as [-> | ->];
    [|done].
  cbn. unfold write_caption, getitem. by rewrite Hk.
Qed.

Lemma classify_foreign_key (E : Event) (np_boxes : list Box) (im : Img)
    (threshold alpha : Q) (drawContour : bool) (self : EventManager)
    (before after : ROISettings) (whichROI : string) (cnt : Contour) :
  captions_return E →
  contourROI self = before ++ (whichROI, cnt) :: after →
  dict_keys_distinct before → region_names before →
  ROIColor !! whichROI = None → cnt ≠ [] →
  classify E np_boxes (Some im) threshold alpha drawContour self
    = (raise (KeyError whichROI), self).
Proof.
  intros Hcap Hd Hdup Hnames Hk Hcnt. unfold classify, classify_over.
  rewrite Hd, enumerate_app, for_each_app.
  set (l := mkLocals _ _ _ _ _ _).
  assert (key <$> enumerate before = before.*1) as Hkeys.
  { rewrite <- (enumerate_values before) at 2. by rewrite <- list_fmap_compose. }
  destruct (regions_loop E (colorBlink self) (mask E threshold np_boxes) im alpha drawContour
              (Hcap (colorBlink self) (mask E threshold np_boxes)) (enumerate before)
              l (mkCanvas im []) (mkCanvas im []) (plain (mkCanvas im [])))
    as (l' & o' & f' & fr' & Hrun & _ & _ & Hrest & _);
    [by rewrite Hkeys| |done..|].
  { intros e He.
    assert (e.2 ∈ before) as Hin.
    { rewrite <- (enumerate_values before). apply list_elem_of_fmap. by exists e. }
    destruct e as [i [k c]]. unfold key; cbn in *.
    split; [by eapply Hnames|]. apply varApp0_named. by eapply Hnames. }
  rewrite Hrun. cbn [bind ok imap for_each].
  rewrite region_missing_key; [done..|].
  rewrite Hrest.
  - subst l. cbn. by apply varApp0_unnamed.
  - rewrite Hkeys. intros (kc & Hkc & Hin)%list_elem_of_fmap. destruct kc as [k c].
    cbn in Hkc. subst k. destruct (Hnames _ _ Hin) as [col Hcol]. congruence.
Qed.

(** X1: when the settings hold a non-empty region under a key that is not
    one of the five region names, after regions that are well named, a
    call that is given an image raises [KeyError] on that key (at
    [varApp[whichROI]], lines 194 and 201) and the object is left as it
    was: [colorBlink] is not advanced. *)
Theorem foreign_region_raises_KeyError (c : Call Img) (im : Img) (self : EventManager)
    (before after : ROISettings) (whichROI : string) (cnt : Contour) :
  image_of c = Some im →
  contourROI self = before ++ (whichROI, cnt) :: after →
  dict_keys_distinct before → region_names before →
  ROIColor !! whichROI = None → cnt ≠ [] →
  perform c self = (raise (KeyError whichROI), self).
Proof.
  intros Himg Hd Hdup Hnames Hk Hcnt.
  destruct c as [np_boxes img threshold alpha drawContour vehicleThres
                |np_boxes img threshold alpha drawContour
                |np_boxes img threshold alpha drawContour]; cbn in Himg; subst img; cbn.
  - by eapply classify_foreign_key; [apply EventStat_captions|..].
  - by eapply classify_foreign_key; [apply AlertStranger_captions|..].
  - by eapply classify_foreign_key; [apply MonitorVehicle_captions|..].
Qed.

End Foreign.

Lemma foreign_region_raises_KeyError_witness :
  let self := Scene.manager [("ROI 1"%string, Scene.square); ("Gate"%string, Scene.strip)] 3 in
  perform (call_findEventStat (Img := unit) [Scene.car] (Some tt) 0.5 0.15 true 5) self
    = (raise (KeyError "Gate"), self).
Proof.
  intros self.
  apply (foreign_region_raises_KeyError (Img := unit) _ tt self
           [("ROI 1"%string, Scene.square)] [] "Gate" Scene.strip); try done.
  - unfold dict_keys_distinct. apply (bool_decide_unpack _). by vm_compute.
  - intros whichROI vertices Hin.
    apply elem_of_cons in Hin as [[= -> ->]|Hin];
      [apply (bool_decide_unpack _); by vm_compute|].
    by apply elem_of_nil in Hin.
Defined.

(** ** What a call returns, when an image is given *)

Section Returned.

Context {Img : Type} `{OpenCV}.

Lemma event_of_captions (c : Call Img) : captions_return (event_of c).
Proof.
  destruct c; [apply EventStat_captions|apply AlertStranger_captions
              |apply MonitorVehicle_captions].
Qed.

Lemma perform_returns (c : Call Img) (im : Img) (self : EventManager) :
  image_of c = Some im →
  dict_keys_distinct (contourROI self) → region_names (contourROI self) →
  ∃ final tags counts,
    perform c self = (ok (final, tags, counts), advance self) ∧
    tags = flat_map (tagging (survivors_of c) inside) (enumerate (contourROI self)) ∧
    (∀ whichROI vertices, (whichROI, vertices) ∈ contourROI self →
       counts !! whichROI = Some (occupants vertices (survivors_of c))) ∧
    (∀ whichROI, whichROI ∉ (contourROI self).*1 →
       counts !! whichROI = varApp0 !! whichROI) ∧
    drawn (overlay_of final)
      = flat_map (rendering (survivors_of c) (drawContour_of c)
                            (alert (event_of c) (colorBlink self)))
                 (contourROI self).
Proof.
  intros Himg Hdup Hnames.
  destruct c as [np_boxes img threshold alpha drawContour vehicleThres
                |np_boxes img threshold alpha drawContour
                |np_boxes img threshold alpha drawContour]; cbn in Himg; subst img; cbn.
  - by apply classify_with_image; [apply EventStat_captions|..].
  - by apply classify_with_image; [apply AlertStranger_captions|..].
  - by apply classify_with_image; [apply MonitorVehicle_captions|..].
Qed.



Lemma occupants_bounds (vertices : Contour) (np_boxes : list Box) :
  0 ≤ occupants vertices np_boxes ≤ Z.of_nat (length np_boxes).
Proof.
  unfold occupants, tagged. case_bool_decide; cbn; [lia|].
  pose proof (filter_length_le (inside vertices) np_boxes). lia.
Qed.

Lemma varApp0_lookup (whichROI : string) (n : Z) :
  varApp0 !! whichROI = Some n → n = 0 ∧ is_Some (ROIColor !! whichROI).
Proof.
  destruct (ROIColor !! whichROI) as [color|] eqn:Hc.
  - rewrite (varApp0_named whichROI) by by eexists. intros [= <-]. by split; [|eexists].
  - by rewrite (varApp0_unnamed whichROI Hc).
Qed.

(** X3: the dict of counts a call returns has exactly the five keys
    "ROI 1" .. "ROI 5", whatever regions the settings hold; every count is
    between 0 and the number of rows that passed the mask, and a region
    name that the settings do not hold has count 0. *)
Theorem counts_have_the_five_keys (c : Call Img) (im : Img) (self : EventManager) :
  image_of c = Some im →
  dict_keys_distinct (contourROI self) → region_names (contourROI self) →
  ∃ final tags counts,
    perform c self = (ok (final, tags, counts), advance self) ∧
    dom counts = dom ROIColor ∧
    (∀ whichROI n, counts !! whichROI = Some n →
       0 ≤ n ≤ Z.of_nat (length (survivors_of c))) ∧
    (∀ whichROI, is_Some (ROIColor !! whichROI) → whichROI ∉ (contourROI self).*1 →
       counts !! whichROI = Some 0).
Proof.
  intros Himg Hdup Hnames.
  destruct (perform_returns c im self Himg Hdup Hnames)
    as (final & tags & counts & Hcall & _ & Hin & Hout & _).
  exists final, tags, counts. split; [done|].
  assert (∀ whichROI, whichROI ∈ (contourROI self).*1 →
            ∃ vertices, (whichROI, vertices) ∈ contourROI self) as Hitem.
  { intros k ([k' vertices] & -> & Hk)%list_elem_of_fmap. by exists vertices. }
  split; [|split].
  - apply set_eq. intros k. rewrite !elem_of_dom.
    destruct (decide (k ∈ (contourROI self).*1)) as [Hk|Hk].
    + destruct (Hitem k Hk) as [vertices Hkv]. rewrite (Hin _ _ Hkv).
      split; [intros _; by eapply Hnames|by eexists].
    + rewrite (Hout k Hk). split.
      * intros [n Hn]. by apply varApp0_lookup in Hn as [_ ?].
      * intros Hc. rewrite varApp0_named by done. by eexists.
  - intros k n Hn. destruct (decide (k ∈ (contourROI self).*1)) as [Hk|Hk].
    + destruct (Hitem k Hk) as [vertices Hkv]. rewrite (Hin _ _ Hkv) in Hn.
      injection Hn as <-. apply occupants_bounds.
    + rewrite (Hout k Hk) in Hn. apply varApp0_lookup in Hn as [-> _]. lia.
  - intros k Hc Hk. rewrite (Hout k Hk). by apply varApp0_named.
Qed.

(** X4: the tags and the counts depend on the settings and on the rows
    that pass the mask only: two calls, of any of the three methods, with
    the same such rows on objects with the same settings return the same
    tags and the same counts, whatever the images, [alpha], [drawContour]
    and [colorBlink]. *)
Theorem tags_and_counts_ignore_rendering (c c' : Call Img) (im im' : Img)
    (self self' : EventManager) :
  image_of c = Some im → image_of c' = Some im' →
  survivors_of c = survivors_of c' →
  contourROI self = contourROI self' →
  dict_keys_distinct (contourROI self) → region_names (contourROI self) →
  ∃ final final' tags counts,
    perform c self = (ok (final, tags, counts), advance self) ∧
    perform c' self' = (ok (final', tags, counts), advance self').
Proof.
  intros Himg Himg' Hsurv Hd Hdup Hnames.
  destruct (perform_returns c im self Himg Hdup Hnames)
    as (final & tags & counts & Hcall & Htags & Hin & Hout & _).
  rewrite Hd in Hdup, Hnames.
  destruct (perform_returns c' im' self' Himg' Hdup Hnames)
    as (final' & tags' & counts' & Hcall' & Htags' & Hin' & Hout' & _).
  exists final, final', tags, counts. split; [done|].
  rewrite Hcall'. do 3 f_equal.
  - rewrite Htags, Htags', Hsurv, Hd. done.
  - apply map_eq. intros k.
    destruct (decide (k ∈ (contourROI self').*1)) as [Hk|Hk].
    + apply list_elem_of_fmap in Hk as ([k' vertices] & -> & Hk). cbn.
      rewrite (Hin' _ _ Hk). rewrite <- Hd in Hk. rewrite (Hin _ _ Hk). by rewrite Hsurv.
    + rewrite (Hout' k Hk). rewrite <- Hd in Hk. by rewrite (Hout k Hk).
Qed.

End Returned.

(** ** The three masks compared *)

Lemma filter_split_length {A} (p a b c : A → bool) (xs : list A) :
  (∀ x, a x = true → c x = true) →
  (∀ x, b x = true → c x = true) →
  (∀ x, a x = true → b x = true → False) →
  (length (List.filter p (List.filter a xs)) + length (List.filter p (List.filter b xs))
   ≤ length (List.filter p (List.filter c xs)))%nat.
Proof.
  intros Hac Hbc Hab. induction xs as [|x xs IH]; cbn; [done|].
  pose proof (Hac x) as Hac'. pose proof (Hbc x) as Hbc'. pose proof (Hab x) as Hab'.
  destruct (a x), (b x), (c x); cbn; try destruct (p x); cbn;
    try lia; exfalso; auto; by (discriminate Hac' || discriminate Hbc').
Qed.

Lemma person_is_a_class (threshold : Q) (box : Box) :
  expect_boxes AlertStranger threshold box = true →
  expect_boxes (EventStat 0) threshold box = true.
Proof.
  cbn. intros [Hs Hc%Qeq_bool_iff]%andb_true_iff. rewrite Hs. cbn.
  apply Qgtb_lt. by rewrite Hc.
Qed.

Lemma vehicle_is_a_class (threshold : Q) (box : Box) :
  expect_boxes MonitorVehicle threshold box = true →
  expect_boxes (EventStat 0) threshold box = true.
Proof.
  cbn. intros [Hs Hc]%andb_true_iff. rewrite Hs. cbn. apply Qgtb_lt.
  apply orb_true_iff in Hc as [Hc|Hc%Qeq_bool_iff]; [|by rewrite Hc].
  apply orb_true_iff in Hc as [Hc%Qeq_bool_iff|Hc%Qeq_bool_iff]; by rewrite Hc.
Qed.

Lemma person_is_no_vehicle (threshold : Q) (box : Box) :
  expect_boxes AlertStranger threshold box = true →
  expect_boxes MonitorVehicle threshold box = true → False.
Proof.
  cbn. intros [_ H0%Qeq_bool_iff]%andb_true_iff [_ Hc]%andb_true_iff.
  apply orb_true_iff in Hc as [Hc|Hc%Qeq_bool_iff]; [|by rewrite H0 in Hc].
  apply orb_true_iff in Hc as [Hc%Qeq_bool_iff|Hc%Qeq_bool_iff]; by rewrite H0 in Hc.
Qed.

Section Compared.

Context {Img : Type} `{OpenCV}.

(** X5: on the same detections, threshold and settings, the count
    [findEventStat] returns for a region is at least the sum of the counts
    [alertStrangerIntrusion] and [monitorVehicle] return for it: a row
    kept as a person or as a vehicle is kept by [findEventStat], and no
    row is both. *)
Theorem findEventStat_counts_persons_and_vehicles (self : EventManager)
    (np_boxes : list Box) (im : Img) (threshold alpha : Q) (drawContour : bool)
    (vehicleThres : Z) :
  dict_keys_distinct (contourROI self) → region_names (contourROI self) →
  ∃ out_stat out_stranger out_vehicle,
    findEventStat np_boxes (Some im) threshold alpha drawContour vehicleThres self
      = (ok out_stat, advance self) ∧
    alertStrangerIntrusion np_boxes (Some im) threshold alpha drawContour self
      = (ok out_stranger, advance self) ∧
    monitorVehicle np_boxes (Some im) threshold alpha drawContour self
      = (ok out_vehicle, advance self) ∧
    ∀ whichROI vertices, (whichROI, vertices) ∈ contourROI self →
      ∃ stat strangers vehicles,
        out_stat.2 !! whichROI = Some stat ∧
        out_stranger.2 !! whichROI = Some strangers ∧
        out_vehicle.2 !! whichROI = Some vehicles ∧
        strangers + vehicles ≤ stat.
Proof.
  intros Hdup Hnames.
  destruct (classify_with_image (EventStat vehicleThres) np_boxes im threshold alpha
              drawContour self (EventStat_captions _) Hdup Hnames)
    as (f1 & t1 & c1 & Hcall1 & _ & Hin1 & _).
  destruct (classify_with_image AlertStranger np_boxes im threshold alpha
              drawContour self AlertStranger_captions Hdup Hnames)
    as (f2 & t2 & c2 & Hcall2 & _ & Hin2 & _).
  destruct (classify_with_image MonitorVehicle np_boxes im threshold alpha
              drawContour self MonitorVehicle_captions Hdup Hnames)
    as (f3 & t3 & c3 & Hcall3 & _ & Hin3 & _).
  exists (f1, t1, c1), (f2, t2, c2), (f3, t3, c3). repeat (split; [done|]).
  intros whichROI vertices Hin. do 3 eexists.
  split; [by apply Hin1|]. split; [by apply Hin2|]. split; [by apply Hin3|].
  unfold occupants, tagged. case_bool_decide; [done|]. rewrite !mask_filter.
  pose proof (filter_split_length (inside vertices)
                (expect_boxes AlertStranger threshold)
                (expect_boxes MonitorVehicle threshold)
                (expect_boxes (EventStat vehicleThres) threshold) np_boxes
                (person_is_a_class threshold) (vehicle_is_a_class threshold)
                (person_is_no_vehicle threshold)).
  lia.
Qed.

(** ** The frame that is returned *)

Lemma region_keeps_frame (E : Event) (blink : Z) (np_boxes : list Box) (img : option Img)
    (alpha : Q) (entry : Z * (string * Contour)) (l l' : Locals Img) :
  region E blink np_boxes img alpha false entry l = ok l' →
  final_np_1 l' = final_np_1 l.
Proof.
  destruct entry as [indexROI [whichROI vertices]]. unfold region.
  case_bool_decide; [by intros [= <-]|].
  destruct (for_each np_boxes (tag_box vertices indexROI whichROI) l) as [e|l1] eqn:Htag;
    cbn; [done|].
  intros Hrest.
  assert (final_np_1 l1 = final_np_1 l) as Hl1.
  { eapply (for_each_preserves (fun s : Locals Img => final_np_1 s = final_np_1 l)); [|done..].
    intros box s s' Hbox Hs. apply tag_box_images in Hbox as (_ & _ & ->). done. }
  unfold write_caption in Hrest.
  destruct (getitem (varApp l1) whichROI) as [e|n]; cbn in Hrest; [done|].
  unfold draw_contour in Hrest. rewrite andb_false_r in Hrest.
  destruct (caption E blink indexROI n np_boxes) as [e|[[[a s] sc]|]]; cbn in Hrest; [done|..].
  - destruct (bColor a whichROI) as [e|color]; cbn in Hrest; [done|].
    destruct (draw "final_np" (final_np l1) _) as [e|f]; cbn in Hrest; [done|].
    by injection Hrest as <-.
  - by injection Hrest as <-.
Qed.

(** X6: with [drawContour = False] the image a call returns is the copy of
    the input image as it was: the captions are written on [final_np]
    only, and [final_np] reaches [final_np_1] in the contour block alone
    (line 231). *)
Theorem without_contours_the_image_is_returned_as_it_is (c : Call Img) (im : Img)
    (self : EventManager) :
  image_of c = Some im → drawContour_of c = false →
  dict_keys_distinct (contourROI self) → region_names (contourROI self) →
  ∃ tags counts,
    perform c self = (ok (plain (mkCanvas im []), tags, counts), advance self).
Proof.
  intros Himg Hdc Hdup Hnames.
  destruct (perform_returns c im self Himg Hdup Hnames)
    as (final & tags & counts & Hcall & _).
  assert (∀ E np_boxes threshold alpha,
            classify E np_boxes (Some im) threshold alpha false self
              = (ok (final, tags, counts), advance self) →
            final = plain (mkCanvas im [])) as Hplain.
  { intros E np_boxes threshold alpha. unfold classify, classify_over.
    destruct (for_each _ _ _) as [e|l] eqn:Hloop; [done|].
    assert (final_np_1 l = Some (plain (mkCanvas im []))) as ->.
    { eapply (for_each_preserves
                (fun s : Locals Img => final_np_1 s = Some (plain (mkCanvas im []))));
        [|done..].
      intros entry s s' Hentry Hs. by rewrite (region_keeps_frame _ _ _ _ _ _ _ _ Hentry). }
    cbn. by intros [= <- _ _]. }
  assert (final = plain (mkCanvas im [])) as <-; [|by exists tags, counts].
  destruct c as [np_boxes img threshold alpha drawContour vehicleThres
                |np_boxes img threshold alpha drawContour
                |np_boxes img threshold alpha drawContour];
    cbn in Himg, Hdc, Hcall; subst img drawContour; by eapply Hplain.
Qed.

Lemma for_each_inactive (E : Event) (blink : Z) (np_boxes : list Box) (img : option Img)
    (alpha : Q) (drawContour : bool) (entries : list (Z * (string * Contour)))
    (l : Locals Img) :
  (∀ entry, entry ∈ entries → entry.2.2 = []) →
  for_each entries (region E blink np_boxes img alpha drawContour) l = ok l.
Proof.
  induction entries as [|[indexROI [whichROI vertices]] entries IH]; intros Hempty; [done|].
  cbn [for_each].
  assert (vertices = []) as -> by (by apply (Hempty (indexROI, (whichROI, vertices))); left).
  rewrite region_inactive. cbn. apply IH. intros entry Hentry. apply Hempty. by right.
Qed.

(** X7: when no region of the settings has vertices (as in the settings
    the configuration page creates or clears to), a call that is given an
    image returns the copy of the image as it was, no tag, and the five
    counts at 0, whatever the keys of the settings, and advances
    [colorBlink]. *)
Theorem settings_without_vertices_return_the_image (c : Call Img) (im : Img)
    (self : EventManager) :
  image_of c = Some im →
  (∀ whichROI vertices, (whichROI, vertices) ∈ contourROI self → vertices = []) →
  perform c self = (ok (plain (mkCanvas im []), [], varApp0), advance self).
Proof.
  intros Himg Hempty.
  assert (∀ E np_boxes threshold alpha drawContour,
            classify E np_boxes (Some im) threshold alpha drawContour self
              = (ok (plain (mkCanvas im []), [], varApp0), advance self)) as Hplain.
  { intros E np_boxes threshold alpha drawContour. unfold classify, classify_over.
    rewrite for_each_inactive; [done|].
    intros [i [k vertices]] Hentry. cbn. apply (Hempty k).
    rewrite <- (enumerate_values (contourROI self)). apply list_elem_of_fmap.
    by exists (i, (k, vertices)). }
  destruct c; cbn in Himg; subst; apply Hplain.
Qed.

End Compared.

(** ** Event types without a name *)

(** X8: for an event type other than 0, 1 and 2 the constructor raises
    [KeyError] and builds no object, and [updateROISettings] raises
    [KeyError] with the settings kept but with [eventType] already set to
    that event type (line 119 is before line 120). *)
Theorem unknown_event_type_raises_KeyError (files : Files) (config : string)
    (eventType' : Z) (self : EventManager) :
  eventType' ≠ 0 → eventType' ≠ 1 → eventType' ≠ 2 →
  init files config eventType' = raise (KeyError (pretty eventType')) ∧
  updateROISettings files eventType' self
    = (raise (KeyError (pretty eventType')),
       mkEventManager (configPath self) (contourROI self) (colorBlink self) eventType').
Proof.
  intros H0 H1 H2. unfold init, updateROISettings. cbn.
  by rewrite eventName_getitem_unknown.
Qed.

Lemma unknown_event_type_raises_KeyError_witness :
  let self := Scene.manager Scene.one_square 4 in
  init (fun _ => Some Scene.one_square) "config" 3 = raise (KeyError "3") ∧
  updateROISettings (fun _ => Some Scene.one_strip) 3 self
    = (raise (KeyError "3"), mkEventManager "config" Scene.one_square 4 3).
Proof.
  intros self.
  split.
  - apply (unknown_event_type_raises_KeyError (fun _ => Some Scene.one_square) "config" 3 self);
      done.
  - apply (unknown_event_type_raises_KeyError (fun _ => Some Scene.one_strip) "config" 3 self);
      done.
Defined.

(** The settings of [Scene] have distinct keys, all of them region names. *)
Ltac scene_settings :=
  match goal with
  | |- dict_keys_distinct _ =>
      unfold dict_keys_distinct; apply (bool_decide_unpack _); by vm_compute
  | |- region_names _ =>
      let Hin := fresh "Hin" in
      intros ? ? Hin;
      unfold Scene.manager, Scene.one_square, Scene.one_strip in Hin; cbn in Hin;
      repeat (apply elem_of_cons in Hin as [[= -> ->]|Hin];
              [apply (bool_decide_unpack _); by vm_compute|]);
      by apply elem_of_nil in Hin
  end.


Lemma counts_have_the_five_keys_witness :
  ∃ final tags counts,
    perform (call_findEventStat (Img := unit) [Scene.car] (Some tt) 0.5 0.15 true 5)
            (Scene.manager [("ROI 2"%string, Scene.square)] 0)
      = (ok (final, tags, counts),
         advance (Scene.manager [("ROI 2"%string, Scene.square)] 0)) ∧
    dom counts = dom ROIColor ∧ counts !! "ROI 1"%string = Some 0.
Proof.
  destruct (counts_have_the_five_keys
              (call_findEventStat (Img := unit) [Scene.car] (Some tt) 0.5 0.15 true 5)
              tt (Scene.manager [("ROI 2"%string, Scene.square)] 0))
    as (final & tags & counts & Hcall & Hdom & _ & Hzero); [done|scene_settings..|].
  exists final, tags, counts. split; [done|]. split; [done|].
  apply Hzero; [by apply (bool_decide_unpack _); vm_compute|].
  cbn. intros [[=]|Hin]%elem_of_cons. by apply elem_of_nil in Hin.
Defined.

Lemma tags_and_counts_ignore_rendering_witness :
  ∃ final final' tags counts,
    perform (call_findEventStat (Img := bool) [Scene.car] (Some true) 0.5 0.15 true 5)
            (Scene.manager Scene.one_square 0)
      = (ok (final, tags, counts), advance (Scene.manager Scene.one_square 0)) ∧
    perform (call_monitorVehicle (Img := bool) [Scene.car; Scene.person] (Some false)
               0.5 0.4 false)
            (Scene.manager Scene.one_square 7)
      = (ok (final', tags, counts), advance (Scene.manager Scene.one_square 7)).
Proof.
  apply (tags_and_counts_ignore_rendering
           (call_findEventStat (Img := bool) [Scene.car] (Some true) 0.5 0.15 true 5)
           (call_monitorVehicle (Img := bool) [Scene.car; Scene.person] (Some false)
              0.5 0.4 false)
           true false (Scene.manager Scene.one_square 0) (Scene.manager Scene.one_square 7));
    try done; try scene_settings.
Defined.

Lemma findEventStat_counts_persons_and_vehicles_witness :
  ∃ out_stat out_stranger out_vehicle,
    findEventStat (Img := unit) [Scene.car; Scene.person] (Some tt) 0.5 0.15 true 5
                  (Scene.manager Scene.one_square 0)
      = (ok out_stat, advance (Scene.manager Scene.one_square 0)) ∧
    alertStrangerIntrusion (Img := unit) [Scene.car; Scene.person] (Some tt) 0.5 0.15 true
                           (Scene.manager Scene.one_square 0)
      = (ok out_stranger, advance (Scene.manager Scene.one_square 0)) ∧
    monitorVehicle (Img := unit) [Scene.car; Scene.person] (Some tt) 0.5 0.15 true
                   (Scene.manager Scene.one_square 0)
      = (ok out_vehicle, advance (Scene.manager Scene.one_square 0)) ∧
    ∀ whichROI vertices, (whichROI, vertices) ∈ Scene.one_square →
      ∃ stat strangers vehicles,
        out_stat.2 !! whichROI = Some stat ∧
        out_stranger.2 !! whichROI = Some strangers ∧
        out_vehicle.2 !! whichROI = Some vehicles ∧
        strangers + vehicles ≤ stat.
Proof.
  apply (findEventStat_counts_persons_and_vehicles (Img := unit)
           (Scene.manager Scene.one_square 0) [Scene.car; Scene.person] tt 0.5 0.15 true 5);
    scene_settings.
Defined.

Lemma without_contours_the_image_is_returned_as_it_is_witness :
  ∃ tags counts,
    perform (call_alertStrangerIntrusion (Img := unit) [Scene.person] (Some tt) 0.5 0.15 false)
            (Scene.manager Scene.one_square 0)
      = (ok (plain (mkCanvas tt []), tags, counts),
         advance (Scene.manager Scene.one_square 0)).
Proof.
  apply (without_contours_the_image_is_returned_as_it_is
           (call_alertStrangerIntrusion (Img := unit) [Scene.person] (Some tt) 0.5 0.15 false)
           tt (Scene.manager Scene.one_square 0)); try done; scene_settings.
Defined.

Lemma settings_without_vertices_return_the_image_witness :
  perform (call_monitorVehicle (Img := unit) [Scene.car] (Some tt) 0.5 0.15 true)
          (Scene.manager ui_server.empty_settings 9)
    = (ok (plain (mkCanvas tt []), [], varApp0),
       advance (Scene.manager ui_server.empty_settings 9)).
Proof.
  apply (settings_without_vertices_return_the_image
           (call_monitorVehicle (Img := unit) [Scene.car] (Some tt) 0.5 0.15 true)
           tt (Scene.manager ui_server.empty_settings 9)); [done|].
  intros whichROI vertices Hin. unfold Scene.manager, ui_server.empty_settings in Hin.
  cbn in Hin.
  repeat (apply elem_of_cons in Hin as [[= _ ->]|Hin]; [done|]).
  by apply elem_of_nil in Hin.
Defined.

(** ** The configuration page *)

Lemma item_elem_of (d : ROISettings) (whichROI : string) :
  whichROI ∈ d.*1 → ∃ points, ui_server.item d whichROI = ok points.
Proof.
  induction d as [|[k old] d IH]; cbn; [by intros ?%elem_of_nil|].
  case_bool_decide; [by eexists|].
  intros [?|?]%elem_of_cons; [congruence|by apply IH].
Qed.

Lemma item_not_elem_of (d : ROISettings) (whichROI : string) :
  whichROI ∉ d.*1 → ui_server.item d whichROI = raise (KeyError whichROI).
Proof.
  induction d as [|[k old] d IH]; cbn; [done|].
  intros [? ?]%not_elem_of_cons. rewrite bool_decide_eq_false_2 by done. by apply IH.
Qed.

Lemma set_item_keys (d : ROISettings) (whichROI : string) (points : Contour) :
  (ui_server.set_item d whichROI points).*1 = d.*1.
Proof.
  induction d as [|[k old] d IH]; cbn; [done|].
  case_bool_decide; cbn; [done|]. by rewrite IH.
Qed.

Lemma set_item_item (d : ROISettings) (whichROI : string) (points : Contour) :
  ui_server.item d whichROI = ok points → ui_server.set_item d whichROI points = d.
Proof.
  induction d as [|[k old] d IH]; cbn; [done|].
  case_bool_decide; [by intros [= ->]|]. intros Hitem. by rewrite IH.
Qed.

Lemma set_item_twice (d : ROISettings) (whichROI : string) (points points' : Contour) :
  ui_server.set_item (ui_server.set_item d whichROI points) whichROI points'
    = ui_server.set_item d whichROI points'.
Proof.
  induction d as [|[k old] d IH]; cbn; [done|].
  case_bool_decide as Hk; cbn.
  - by rewrite bool_decide_eq_true_2.
  - rewrite bool_decide_eq_false_2 by done. by rewrite IH.
Qed.

Lemma item_set_item (d : ROISettings) (whichROI : string) (points old : Contour) :
  ui_server.item d whichROI = ok old →
  ui_server.item (ui_server.set_item d whichROI points) whichROI = ok points.
Proof.
  induction d as [|[k v] d IH]; cbn; [done|].
  case_bool_decide as Hk; cbn.
  - by rewrite bool_decide_eq_true_2.
  - rewrite bool_decide_eq_false_2 by done. apply IH.
Qed.

Lemma elem_of_set_item (d : ROISettings) (whichROI : string) (points : Contour)
    (entry : string * Contour) :
  entry ∈ ui_server.set_item d whichROI points → entry ∈ d ∨ entry = (whichROI, points).
Proof.
  induction d as [|[k old] d IH]; cbn; [by left|].
  case_bool_decide as Hk.
  - intros [->|?]%elem_of_cons; [right; by subst|left; by right].
  - intros [->|[?|?]%IH]%elem_of_cons; [left; by left|left; by right|by right].
Qed.

Lemma item_elem (d : ROISettings) (whichROI : string) (points : Contour) :
  ui_server.item d whichROI = ok points → (whichROI, points) ∈ d.
Proof.
  induction d as [|[k old] d IH]; cbn; [done|].
  case_bool_decide as Hk; [intros [= ->]; subst; by left|].
  intros ?%IH. by right.
Qed.

Lemma empty_settings_distinct : dict_keys_distinct ui_server.empty_settings.
Proof. unfold dict_keys_distinct. apply (bool_decide_unpack _). by vm_compute. Qed.

Lemma empty_settings_named : region_names ui_server.empty_settings.
Proof.
  intros whichROI vertices Hin. unfold ui_server.empty_settings in Hin.
  repeat (apply elem_of_cons in Hin as [[= -> ->]|Hin];
          [apply (bool_decide_unpack _); by vm_compute|]).
  by apply elem_of_nil in Hin.
Qed.

(** What the three buttons can do to the settings: the list of one key is
    changed, or the settings are cleared. *)
Lemma press_changes (buttons : ui_server.Buttons) (whichROI : string) (x y : Z)
    (d d' : ROISettings) :
  ui_server.press buttons whichROI x y d = ok d' →
  d' = ui_server.empty_settings ∨ d' = d ∨
  ∃ points, d' = ui_server.set_item d whichROI points.
Proof.
  unfold ui_server.press.
  assert (∀ d0 d1, ui_server.create_point whichROI x y d0 = ok d1 →
            d1 = d0 ∨ ∃ points, d1 = ui_server.set_item d0 whichROI points) as Hcreate.
  { intros d0 d1. unfold ui_server.create_point.
    destruct (ui_server.item d0 whichROI) as [e|points]; cbn; [done|].
    case_bool_decide; intros [= <-]; [right; by eexists|by left]. }
  assert (∀ d0 d1, ui_server.delete_last_point whichROI d0 = ok d1 →
            d1 = d0 ∨ ∃ points, d1 = ui_server.set_item d0 whichROI points) as Hdelete.
  { intros d0 d1. unfold ui_server.delete_last_point.
    destruct (ui_server.item d0 whichROI) as [e|points]; cbn; [done|].
    destruct (negb _); intros [= <-]; [right; by eexists|by left]. }
  destruct (ui_server.create_points buttons).
  - destruct (ui_server.create_point whichROI x y d) as [e|d1] eqn:H1; cbn; [done|].
    apply Hcreate in H1.
    destruct (ui_server.delete_last_points buttons).
    + destruct (ui_server.delete_last_point whichROI d1) as [e|d2] eqn:H2; cbn; [done|].
      apply Hdelete in H2. intros [= <-].
      destruct (ui_server.clear_all buttons); [by left|right].
      destruct H1 as [->|[p1 ->]], H2 as [->|[p2 ->]]; eauto.
      right. exists p2. by rewrite set_item_twice.
    + cbn. intros [= <-]. destruct (ui_server.clear_all buttons); [by left|right].
      destruct H1 as [->|[p1 ->]]; eauto.
  - cbn. destruct (ui_server.delete_last_points buttons).
    + destruct (ui_server.delete_last_point whichROI d) as [e|d2] eqn:H2; cbn; [done|].
      apply Hdelete in H2. intros [= <-].
      destruct (ui_server.clear_all buttons); [by left|right].
      destruct H2 as [->|[p2 ->]]; eauto.
    + cbn. intros [= <-]. destruct (ui_server.clear_all buttons); [by left|right; by left].
Qed.

Lemma press_keeps_names (buttons : ui_server.Buttons) (whichROI : string) (x y : Z)
    (d d' : ROISettings) :
  ui_server.press buttons whichROI x y d = ok d' →
  dict_keys_distinct d → region_names d →
  dict_keys_distinct d' ∧ region_names d'.
Proof.
  intros Hpress Hdup Hnames.
  destruct (press_changes _ _ _ _ _ _ Hpress) as [->|[->|[points ->]]].
  - split; [apply empty_settings_distinct|apply empty_settings_named].
  - done.
  - split.
    + unfold dict_keys_distinct. by rewrite set_item_keys.
    + intros k vertices Hin.
      assert (k ∈ d.*1) as Hk.
      { rewrite <- (set_item_keys d whichROI points). apply list_elem_of_fmap.
        by exists (k, vertices). }
      apply list_elem_of_fmap in Hk as ([k' v'] & -> & Hk). by eapply Hnames.
Qed.

Lemma press_returns (buttons : ui_server.Buttons) (whichROI : string) (x y : Z)
    (d : ROISettings) :
  whichROI ∈ d.*1 → ∃ d', ui_server.press buttons whichROI x y d = ok d'.
Proof.
  intros Hk. unfold ui_server.press.
  assert (∀ d0, whichROI ∈ d0.*1 →
            ∃ d1, ui_server.create_point whichROI x y d0 = ok d1 ∧ whichROI ∈ d1.*1)
    as Hcreate.
  { intros d0 Hd0. unfold ui_server.create_point.
    destruct (item_elem_of d0 whichROI Hd0) as [points ->]. cbn.
    case_bool_decide; eexists; (split; [done|]); [by rewrite set_item_keys|done]. }
  assert (∀ d0, whichROI ∈ d0.*1 →
            ∃ d1, ui_server.delete_last_point whichROI d0 = ok d1) as Hdelete.
  { intros d0 Hd0. unfold ui_server.delete_last_point.
    destruct (item_elem_of d0 whichROI Hd0) as [points ->]. cbn.
    destruct (negb _); by eexists. }
  destruct (ui_server.create_points buttons).
  - destruct (Hcreate d Hk) as (d1 & -> & Hk1). cbn.
    destruct (ui_server.delete_last_points buttons); cbn; [|by eexists].
    destruct (Hdelete d1 Hk1) as (d2 & ->). cbn. by eexists.
  - cbn. destruct (ui_server.delete_last_points buttons); cbn; [|by eexists].
    destruct (Hdelete d Hk) as (d2 & ->). cbn. by eexists.
Qed.

Section Page.

Context {Img : Type} `{OpenCV}.

Lemma paint_region_returns (alpha : Q) (entry : Z * (string * Contour))
    (images : ui_server.Picture Img * ui_server.Picture Img) :
  is_Some (ROIColor !! entry.2.1) →
  ∃ images', ui_server.paint_region alpha entry images = ok images'.
Proof.
  destruct entry as [index [whichROI vertices]], images as [overlay_np final_np].
  cbn. intros [color Hc]. case_bool_decide; [by eexists|].
  unfold getitem. rewrite Hc. cbn.
  destruct (Qneb (m10 (moments vertices)) (m00 (moments vertices)) &&
            Qneb (m01 (moments vertices)) (m00 (moments vertices))) eqn:Hne; [|by eexists].
  apply andb_true_iff in Hne as [Hne _].
  assert (Qeq_bool (m00 (moments vertices)) 0 = false) as Hm00.
  { destruct (Qeq_bool (m00 (moments vertices)) 0) eqn:Hz; [|done].
    apply Qeq_bool_iff in Hz.
    destruct (moments_degenerate vertices Hz) as [Hz10 _].
    unfold Qneb in Hne. apply negb_true_iff in Hne.
    assert (Qeq_bool (m10 (moments vertices)) (m00 (moments vertices)) = true) as Heq.
    { apply Qeq_bool_iff. by rewrite Hz10, Hz. }
    congruence. }
  unfold truediv. rewrite Hm00. cbn. by eexists.
Qed.

Lemma paint_all_returns (alpha : Q) (entries : list (Z * (string * Contour))) :
  (∀ entry, entry ∈ entries → is_Some (ROIColor !! entry.2.1)) →
  ∀ images : ui_server.Picture Img * ui_server.Picture Img,
    ∃ images', for_each entries (ui_server.paint_region alpha) images = ok images'.
Proof.
  induction entries as [|entry entries IH]; intros Hnames images; [by eexists|].
  cbn [for_each].
  destruct (paint_region_returns alpha entry images) as [images1 ->]; [apply Hnames; by left|].
  cbn. apply IH. intros e He. apply Hnames. by right.
Qed.

(** X9: on settings with distinct keys that are region names, among them
    the region selected, [configureROI] returns whatever buttons are
    pressed, and writes to the file of the event settings that again have
    distinct keys that are region names: settings on which the
    classification methods return (see C1). *)
Theorem page_saves_well_named_settings (img_np : Img) (d : ROISettings)
    (eventType app_config_dir whichROI : string) (x y : Z) (alpha : Q)
    (buttons : ui_server.Buttons) (files : Files) :
  dict_keys_distinct d → region_names d → whichROI ∈ d.*1 →
  ∃ d' image,
    ui_server.configureROI img_np d eventType app_config_dir whichROI x y alpha buttons files
      = ok (ui_server.json_dump_open files (settings_path app_config_dir eventType) d',
            image) ∧
    ui_server.press buttons whichROI x y d = ok d' ∧
    dict_keys_distinct d' ∧ region_names d'.
Proof.
  intros Hdup Hnames Hk.
  destruct (press_returns buttons whichROI x y d Hk) as [d' Hpress].
  destruct (press_keeps_names _ _ _ _ _ _ Hpress Hdup Hnames) as [Hdup' Hnames'].
  unfold ui_server.configureROI. rewrite Hpress. cbn.
  assert (∀ entry, entry ∈ enumerate d' → is_Some (ROIColor !! entry.2.1)) as Hentries.
  { intros [i [k vertices]] Hentry. cbn. apply (Hnames' k vertices).
    rewrite <- (enumerate_values d'). apply list_elem_of_fmap.
    by exists (i, (k, vertices)). }
  destruct (paint_all_returns alpha (enumerate d') Hentries
              (ui_server.copied img_np, ui_server.copied img_np)) as [images ->].
  exists d'. eexists. by repeat split.
Qed.

End Page.

Lemma NoDup_removelast {A} (xs : list A) : NoDup xs → NoDup (removelast xs).
Proof.
  destruct xs as [|a xs']; [done|].
  assert (a :: xs' ≠ []) as Hne by done.
  rewrite (app_removelast_last a Hne) at 1.
  by intros [? _]%NoDup_app.
Qed.

Lemma Forall_set_item (P : string * Contour → Prop) (d : ROISettings) (whichROI : string)
    (points : Contour) :
  Forall P d → (∀ k, P (k, points)) → Forall P (ui_server.set_item d whichROI points).
Proof.
  intros Hd Hp. induction Hd as [|[k old] d Hk Hd IH]; cbn; [done|].
  case_bool_decide; constructor; auto.
Qed.

(** X10: the page never stores a point twice in a region: when no list of
    the settings holds a point twice, none does after any press of the
    buttons. *)
Theorem press_keeps_points_distinct (buttons : ui_server.Buttons) (whichROI : string)
    (x y : Z) (d d' : ROISettings) :
  Forall (fun entry => NoDup entry.2) d →
  ui_server.press buttons whichROI x y d = ok d' →
  Forall (fun entry => NoDup entry.2) d'.
Proof.
  intros Hd. unfold ui_server.press.
  assert (∀ d0 points, Forall (fun entry : string * Contour => NoDup entry.2) d0 →
            ui_server.item d0 whichROI = ok points → NoDup points) as Hitem.
  { intros d0 points Hd0 Hi%item_elem. rewrite Forall_forall in Hd0. apply (Hd0 _ Hi). }
  assert (∀ d0 d1, Forall (fun entry : string * Contour => NoDup entry.2) d0 →
            ui_server.create_point whichROI x y d0 = ok d1 →
            Forall (fun entry : string * Contour => NoDup entry.2) d1) as Hcreate.
  { intros d0 d1 Hd0. unfold ui_server.create_point.
    destruct (ui_server.item d0 whichROI) as [e|points] eqn:Hi; cbn; [done|].
    case_bool_decide as Hnew; intros [= <-]; [|done].
    apply Forall_set_item; [done|]. intros k. cbn.
    apply NoDup_app. split; [by eapply Hitem|]. split; [|apply NoDup_singleton].
    intros p Hp Hin%list_elem_of_singleton. by subst p. }
  assert (∀ d0 d1, Forall (fun entry : string * Contour => NoDup entry.2) d0 →
            ui_server.delete_last_point whichROI d0 = ok d1 →
            Forall (fun entry : string * Contour => NoDup entry.2) d1) as Hdelete.
  { intros d0 d1 Hd0. unfold ui_server.delete_last_point.
    destruct (ui_server.item d0 whichROI) as [e|points] eqn:Hi; cbn; [done|].
    destruct (negb _); intros [= <-]; [|done].
    apply Forall_set_item; [done|]. intros k. cbn. apply NoDup_removelast.
    by eapply Hitem. }
  assert (Forall (fun entry : string * Contour => NoDup entry.2) ui_server.empty_settings)
    as Hempty.
  { unfold ui_server.empty_settings. repeat constructor. }
  destruct (ui_server.create_points buttons), (ui_server.delete_last_points buttons); cbn.
  - destruct (ui_server.create_point whichROI x y d) as [e|d1] eqn:H1; cbn; [done|].
    destruct (ui_server.delete_last_point whichROI d1) as [e|d2] eqn:H2; cbn; [done|].
    intros [= <-]. destruct (ui_server.clear_all buttons); [done|]. eauto.
  - destruct (ui_server.create_point whichROI x y d) as [e|d1] eqn:H1; cbn; [done|].
    intros [= <-]. destruct (ui_server.clear_all buttons); [done|]. eauto.
  - destruct (ui_server.delete_last_point whichROI d) as [e|d2] eqn:H2; cbn; [done|].
    intros [= <-]. destruct (ui_server.clear_all buttons); [done|]. eauto.
  - intros [= <-]. by destruct (ui_server.clear_all buttons).
Qed.

Lemma press_keeps_points_distinct_witness :
  ∃ d', ui_server.press (ui_server.mkButtons true false false) "ROI 1" 100 0 Scene.one_square
          = ok d' ∧
        Forall (fun entry => NoDup entry.2) d' ∧ d' = Scene.one_square.
Proof.
  exists Scene.one_square. split; [by vm_compute|]. split; [|done].
  apply (press_keeps_points_distinct (ui_server.mkButtons true false false) "ROI 1" 100 0
           Scene.one_square Scene.one_square); [|by vm_compute].
  unfold Scene.one_square, Scene.square.
  repeat constructor; cbn; apply (bool_decide_unpack _); by vm_compute.
Defined.

(** X11: "Create Points" followed, in the next run, by "Delete last
    Points" on the same region gives back the settings as they were, when
    the point was not in the region already. *)
Theorem delete_last_undoes_create (whichROI : string) (x y x' y' : Z)
    (d : ROISettings) (points : Contour) :
  ui_server.item d whichROI = ok points → (x, y) ∉ points →
  ∃ d1,
    ui_server.press (ui_server.mkButtons true false false) whichROI x y d = ok d1 ∧
    ui_server.item d1 whichROI = ok (points ++ [(x, y)]) ∧
    ui_server.press (ui_server.mkButtons false true false) whichROI x' y' d1 = ok d.
Proof.
  intros Hitem Hnew.
  exists (ui_server.set_item d whichROI (points ++ [(x, y)])).
  assert (ui_server.item (ui_server.set_item d whichROI (points ++ [(x, y)])) whichROI
          = ok (points ++ [(x, y)])) as Hitem1 by by eapply item_set_item.
  split; [|split; [done|]].
  - unfold ui_server.press, ui_server.create_point. cbn. rewrite Hitem. cbn.
    by rewrite bool_decide_eq_true_2.
  - unfold ui_server.press, ui_server.delete_last_point. cbn. rewrite Hitem1. cbn.
    rewrite bool_decide_eq_false_2 by (by destruct points). cbn.
    by rewrite removelast_last, set_item_twice, set_item_item.
Qed.

Lemma delete_last_undoes_create_witness :
  ∃ d1,
    ui_server.press (ui_server.mkButtons true false false) "ROI 2" 7 9 Scene.one_square
      = ok d1 ∧
    ui_server.item d1 "ROI 2" = ok [(7, 9)] ∧
    ui_server.press (ui_server.mkButtons false true false) "ROI 2" 0 0 d1
      = ok Scene.one_square.
Proof.
  apply (delete_last_undoes_create "ROI 2" 7 9 0 0 Scene.one_square []);
    [by vm_compute|by intros ?%elem_of_nil].
Defined.

Section Saved.

Context {Img : Type} `{OpenCV}.

(** X12: when the region selected is not a key of the settings and
    "Create Points" or "Delete last Points" is pressed, [configureROI]
    raises [KeyError] on it, before anything is written: no page and no
    file. *)
Theorem page_raises_KeyError_on_a_missing_region (img_np : Img) (d : ROISettings)
    (eventType app_config_dir whichROI : string) (x y : Z) (alpha : Q)
    (buttons : ui_server.Buttons) (files : Files) :
  whichROI ∉ d.*1 →
  ui_server.create_points buttons = true ∨ ui_server.delete_last_points buttons = true →
  ui_server.configureROI img_np d eventType app_config_dir whichROI x y alpha buttons files
    = raise (KeyError whichROI).
Proof.
  intros Hk Hpressed. unfold ui_server.configureROI, ui_server.press.
  unfold ui_server.create_point, ui_server.delete_last_point.
  destruct (ui_server.create_points buttons); cbn.
  - by rewrite (item_not_elem_of d whichROI Hk).
  - destruct Hpressed as [?| ->]; [done|]. cbn.
    by rewrite (item_not_elem_of d whichROI Hk).
Qed.

(** X13: what [configureROI] saves for an event is what the pipeline loads
    for it: when [configureROI] returns, [updateROISettings] for the
    number of the event, on an object with the same settings directory
    and the files as written, holds exactly the settings the buttons
    produced, and no other file has changed. *)
Theorem settings_saved_are_the_settings_loaded (img_np : Img) (d : ROISettings)
    (eventType app_config_dir whichROI : string) (x y : Z) (alpha : Q)
    (buttons : ui_server.Buttons) (files files' : Files) (image : ui_server.Picture Img)
    (eventType' : Z) (self : EventManager) :
  ui_server.configureROI img_np d eventType app_config_dir whichROI x y alpha buttons files
    = ok (files', image) →
  eventName !! eventType' = Some eventType →
  configPath self = app_config_dir →
  ∃ d',
    ui_server.press buttons whichROI x y d = ok d' ∧
    updateROISettings files' eventType' self
      = (ok tt, mkEventManager app_config_dir d' (colorBlink self) eventType') ∧
    ∀ path, path ≠ settings_path app_config_dir eventType → files' path = files path.
Proof.
  unfold ui_server.configureROI. intros Hrun Hname Hpath.
  destruct (ui_server.press buttons whichROI x y d) as [e|d'] eqn:Hpress; cbn in Hrun; [done|].
  destruct (for_each _ _ _) as [e|images]; cbn in Hrun; [done|].
  injection Hrun as <- _. exists d'. split; [done|]. split.
  - unfold updateROISettings, eventName_getitem, json_load_open. cbn.
    rewrite Hname. cbn. rewrite Hpath. unfold ui_server.json_dump_open.
    by rewrite bool_decide_eq_true_2.
  - intros path Hne. unfold ui_server.json_dump_open.
    by rewrite bool_decide_eq_false_2.
Qed.

End Saved.

Lemma page_raises_KeyError_on_a_missing_region_witness :
  ui_server.configureROI (Img := unit) tt [("ROI 1"%string, Scene.square)] "EventStat" "config"
    "ROI 4" 5 5 0.15 (ui_server.mkButtons true false false) (fun _ => None)
  = raise (KeyError "ROI 4").
Proof.
  apply (page_raises_KeyError_on_a_missing_region (Img := unit) tt
           [("ROI 1"%string, Scene.square)] "EventStat" "config" "ROI 4" 5 5 0.15
           (ui_server.mkButtons true false false) (fun _ => None)).
  - cbn. intros [[=]|Hin]%elem_of_cons. by apply elem_of_nil in Hin.
  - by left.
Defined.

Lemma page_saves_well_named_settings_witness :
  ∃ d' image,
    ui_server.configureROI (Img := unit) tt Scene.one_square "EventStat" "config" "ROI 2" 7 9
      0.15 (ui_server.mkButtons true false false) (fun _ => None)
      = ok (ui_server.json_dump_open (fun _ => None) "config/EventStat.json" d', image) ∧
    ui_server.press (ui_server.mkButtons true false false) "ROI 2" 7 9 Scene.one_square
      = ok d' ∧
    dict_keys_distinct d' ∧ region_names d'.
Proof.
  apply (page_saves_well_named_settings (Img := unit) tt Scene.one_square "EventStat" "config"
           "ROI 2" 7 9 0.15 (ui_server.mkButtons true false false) (fun _ => None));
    [scene_settings..|].
  cbn. apply (bool_decide_unpack _). by vm_compute.
Defined.

Lemma settings_saved_are_the_settings_loaded_witness :
  ∃ files' image d',
    ui_server.configureROI (Img := unit) tt Scene.one_square "MonitorVehicle" "config" "ROI 2"
      7 9 0.15 (ui_server.mkButtons true false false) (fun _ => None) = ok (files', image) ∧
    ui_server.press (ui_server.mkButtons true false false) "ROI 2" 7 9 Scene.one_square
      = ok d' ∧
    updateROISettings files' 2 (Scene.manager Scene.one_strip 3)
      = (ok tt, mkEventManager "config" d' 3 2).
Proof.
  destruct (ui_server.configureROI (Img := unit) tt Scene.one_square "MonitorVehicle" "config"
              "ROI 2" 7 9 0.15 (ui_server.mkButtons true false false) (fun _ => None))
    as [e|[files' image]] eqn:Hrun; [by vm_compute in Hrun|].
  destruct (settings_saved_are_the_settings_loaded (Img := unit) tt Scene.one_square
              "MonitorVehicle" "config" "ROI 2" 7 9 0.15 (ui_server.mkButtons true false false)
              (fun _ => None) files' image 2 (Scene.manager Scene.one_strip 3) Hrun)
    as (d' & Hpress & Hload & _); [done..|].
  by exists files', image, d'.
Defined.

(** ** The page and the pipeline *)

Lemma eventName_lookup (eventType' : Z) (name : string) :
  eventName !! eventType' = Some name →
  (eventType' = 0 ∧ name = "EventStat"%string) ∨
  (eventType' = 1 ∧ name = "AlertStranger"%string) ∨
  (eventType' = 2 ∧ name = "MonitorVehicle"%string).
Proof.
  intros Hname.
  destruct (decide (eventType' = 0)) as [->|H0]; [left; split; [done|]; by injection Hname|].
  destruct (decide (eventType' = 1)) as [->|H1];
    [right; left; split; [done|]; by injection Hname|].
  destruct (decide (eventType' = 2)) as [->|H2];
    [right; right; split; [done|]; by injection Hname|].
  unfold eventName in Hname. by rewrite !lookup_insert_ne, lookup_empty in Hname.
Qed.

Section Started.

Context {Img : Type} `{OpenCV}.

(** X14: in the mode "Event Alert Stream" the page writes [app_mode] 2 and
    the number the pipeline maps to the name of the event selected, having
    made sure that the settings file of the event exists (created with
    five empty regions when there was none, left as it is otherwise): the
    pipeline started on these keys and files holds the settings of that
    file. *)
Theorem stream_mode_names_settings_that_exist (eventType' : Z)
    (eventType app_config_dir : string) (img_np : Img) (whichROI : string) (x y : Z)
    (alpha : Q) (buttons : ui_server.Buttons) (files : Files) (prd : ui_server.Control) :
  eventName !! eventType' = Some eventType →
  ∃ files' d,
    ui_server.runStreamlitServer app_config_dir "Event Alert Stream" eventType img_np
      whichROI x y alpha buttons files prd
      = (files', ui_server.mkControl (Some 2) (Some eventType'), ok ui_server.streaming) ∧
    files' (settings_path app_config_dir eventType) = Some d ∧
    d = default ui_server.empty_settings (files (settings_path app_config_dir eventType)) ∧
    (∀ path, path ≠ settings_path app_config_dir eventType → files' path = files path) ∧
    app_server.start files' app_config_dir eventType' 2
      = ok (app_server.mkState 1 (mkEventManager app_config_dir d 0 eventType') eventType
              eventType' 2 eventType' 2).
Proof.
  intros Hname. unfold ui_server.runStreamlitServer.
  fold (settings_path app_config_dir eventType).
  assert (ui_server.set_event_type eventType
            (ui_server.mkControl (Some 2) (ui_server.event_type prd))
          = ui_server.mkControl (Some 2) (Some eventType')) as Hset.
  { by destruct (eventName_lookup _ _ Hname) as [[-> ->]|[[-> ->]|[-> ->]]]. }
  assert (∀ files' d, files' (settings_path app_config_dir eventType) = Some d →
            app_server.start files' app_config_dir eventType' 2
            = ok (app_server.mkState 1 (mkEventManager app_config_dir d 0 eventType')
                    eventType eventType' 2 eventType' 2)) as Hstart.
  { intros files' d Hfile.
    unfold app_server.start, init, getEventName, eventName_getitem, json_load_open.
    rewrite Hname. cbn. by rewrite Hfile. }
  destruct (files (settings_path app_config_dir eventType)) as [d0|] eqn:Hfile; cbn.
  - exists files, d0. rewrite Hset. by repeat split; [..|apply Hstart].
  - eexists _, ui_server.empty_settings. rewrite Hset. split; [done|].
    assert (ui_server.json_dump_open files (settings_path app_config_dir eventType)
              ui_server.empty_settings (settings_path app_config_dir eventType)
            = Some ui_server.empty_settings) as Hnew.
    { unfold ui_server.json_dump_open. by rewrite bool_decide_eq_true_2. }
    split; [done|]. split; [done|]. split; [|by apply Hstart].
    intros path Hne. unfold ui_server.json_dump_open. by rewrite bool_decide_eq_false_2.
Qed.

End Started.

Lemma stream_mode_names_settings_that_exist_witness :
  ∃ files' d,
    ui_server.runStreamlitServer (Img := unit) "config" "Event Alert Stream" "AlertStranger"
      tt "ROI 1" 0 0 0.15 (ui_server.mkButtons false false false) (fun _ => None)
      (ui_server.mkControl None None)
      = (files', ui_server.mkControl (Some 2) (Some 1), ok ui_server.streaming) ∧
    files' "config/AlertStranger.json"%string = Some d ∧
    d = ui_server.empty_settings.
Proof.
  destruct (stream_mode_names_settings_that_exist (Img := unit) 1 "AlertStranger" "config" tt
              "ROI 1" 0 0 0.15 (ui_server.mkButtons false false false) (fun _ => None)
              (ui_server.mkControl None None))
    as (files' & d & Hrun & Hfile & Hd & _); [done|].
  by exists files', d.
Defined.

(** ** The loops of the pipeline *)

Lemma updateROISettings_returns (files : Files) (eventType' : Z) (self self' : EventManager) :
  updateROISettings files eventType' self = (ok tt, self') →
  eventType self' = eventType' ∧ configPath self' = configPath self ∧
  colorBlink self' = colorBlink self ∧
  ∃ name, eventName !! eventType' = Some name ∧
          files (settings_path (configPath self) name) = Some (contourROI self').
Proof.
  unfold updateROISettings, eventName_getitem, json_load_open. cbn.
  destruct (eventName !! eventType') as [name|]; cbn; [|done].
  destruct (files (settings_path (configPath self) name)) as [d|] eqn:Hfile; cbn; [|done].
  intros [= <-]. cbn. repeat split. by exists name.
Qed.

Lemma pass_returns {Img} (image : Img) (p : app_server.Poll) (s s' : app_server.State)
    (w : app_server.Write Img) :
  app_server.pass image p s = ok (s', w) →
  w = app_server.set (app_server.event_name s') image ∧
  app_server.event_type s' = app_server.polled_event_type p ∧
  app_server.app_mode s' = app_server.polled_app_mode p ∧
  app_server.event_type_prev s' = app_server.polled_event_type p ∧
  app_server.app_mode_prev s' = app_server.polled_app_mode p ∧
  app_server.index s' = app_server.index s ∧
  configPath (app_server.event_manager s') = configPath (app_server.event_manager s) ∧
  colorBlink (app_server.event_manager s') = colorBlink (app_server.event_manager s) ∧
  ((app_server.polled_event_type p = app_server.event_type_prev s ∧
    app_server.polled_app_mode p = app_server.app_mode_prev s ∧
    app_server.event_manager s' = app_server.event_manager s ∧
    app_server.event_name s' = app_server.event_name s) ∨
   ((app_server.polled_event_type p ≠ app_server.event_type_prev s ∨
     app_server.polled_app_mode p ≠ app_server.app_mode_prev s) ∧
    eventType (app_server.event_manager s') = app_server.polled_event_type p ∧
    eventName !! app_server.polled_event_type p = Some (app_server.event_name s') ∧
    app_server.polled_files p
      (settings_path (configPath (app_server.event_manager s)) (app_server.event_name s'))
    = Some (contourROI (app_server.event_manager s')))).
Proof.
  unfold app_server.pass.
  destruct (Z.eqb_spec (app_server.polled_event_type p) (app_server.event_type_prev s))
    as [Het|Het];
    destruct (Z.eqb_spec (app_server.polled_app_mode p) (app_server.app_mode_prev s))
      as [Ham|Ham]; cbn [negb orb].
  1: { cbn. intros [= <- <-]. cbn. repeat split. by left. }
  all: destruct (updateROISettings (app_server.polled_files p)
                   (app_server.polled_event_type p) (app_server.event_manager s))
         as [[e|[]] em] eqn:Hupdate; [done|];
       apply updateROISettings_returns in Hupdate as (Het' & Hpath & Hblink & name & Hname & Hfile);
       unfold getEventName, eventName_getitem; rewrite Hname; cbn;
       intros [= <- <-]; cbn; repeat split; try done; right; repeat split; auto.
Qed.

Lemma pass_in_step {Img} (image : Img) (p : app_server.Poll) (s s' : app_server.State)
    (w : app_server.Write Img) :
  in_step s → app_server.pass image p s = ok (s', w) → in_step s'.
Proof.
  intros (Hem & Hprev & Hname) Hpass.
  apply pass_returns in Hpass
    as (_ & Het & _ & Hprev' & _ & _ & _ & _ &
        [(Hsame & _ & Hem' & Hname')|(_ & Hem' & Hname' & _)]).
  - unfold in_step. rewrite Hem', Hname', Het, Hprev', Hsame, Hprev. done.
  - unfold in_step. by rewrite Hem', Het, Hprev'.
Qed.

Section Pipeline.

Context {Img : Type} `{OpenCV}.
Variables (predict : Img → list Box) (visualize_box_mask : Img → list Box → Img).

Lemma classify_frame_object (event_type : Z) (boxes : list Box) (im : Img)
    (self self' : EventManager) (out : Output Img) :
  app_server.classify_frame event_type boxes im self = (ok out, self') →
  self' = advance self.
Proof.
  unfold app_server.classify_frame.
  repeat (destruct (_ =? _)); apply classify_object.
Qed.

Lemma process_returns (image : Img) (s s' : app_server.State) (w : app_server.Write Img) :
  app_server.process predict visualize_box_mask image s = ok (s', w) →
  app_server.event_manager s' = advance (app_server.event_manager s) ∧
  app_server.index s' = app_server.index s + 1 ∧
  app_server.event_type s' = app_server.event_type s ∧
  app_server.event_type_prev s' = app_server.event_type s ∧
  app_server.app_mode_prev s' = app_server.app_mode_prev s ∧
  app_server.event_name s' = app_server.event_name s ∧
  ∃ appMetadata img, w = app_server.xadd appMetadata img.
Proof.
  unfold app_server.process.
  destruct (app_server.classify_frame _ _ _ _) as [[e|[[img result] appMetadata]] em] eqn:Hc;
    [done|].
  apply classify_frame_object in Hc as ->. intros [= <- <-]. cbn.
  repeat split. by eexists _, _.
Qed.

Lemma start_in_step (files : Files) (app_config_dir : string) (event_type app_mode : Z)
    (s : app_server.State) :
  app_server.start files app_config_dir event_type app_mode = ok s → in_step s.
Proof.
  unfold app_server.start, init, getEventName, eventName_getitem.
  destruct (eventName !! event_type) as [name|] eqn:Hname; cbn; [|done].
  destruct (json_load_open files _) as [e|d]; cbn; [done|].
  intros [= <-]. by repeat split.
Qed.

Lemma reachable_in_step (s : app_server.State) :
  reachable predict visualize_box_mask s → in_step s.
Proof.
  induction 1 as [files dir et am s Hstart|image p s s' w _ IH Hpass
                 |image s s' w _ IH Hprocess].
  - by eapply start_in_step.
  - by eapply pass_in_step.
  - destruct IH as (Hem & Hprev & Hname).
    apply process_returns in Hprocess as (Hem' & _ & Het & Hprev' & _ & Hname' & _).
    unfold in_step. rewrite Hem', Het, Hprev', Hname'. repeat split; [|done].
    rewrite <- Hem. unfold advance. cbn. by destruct (_ =? _).
Qed.

(** X15: in every state the pipeline reaches, the event type of the object,
    the local [event_type] and [event_type_prev] are the same number, one
    of 0, 1 and 2, and [eventName] is its name; so the frame is classified
    by the method of the event type polled, and the last branch of the
    dispatch (lines 127-128) is never the one taken. *)
Theorem pipeline_event_type_is_known (s : app_server.State) :
  reachable predict visualize_box_mask s →
  in_step s ∧
  ((app_server.event_type s = 0 ∧ app_server.event_name s = "EventStat"%string ∧
    ∀ boxes im, app_server.classify_frame (Img := Img) 0 boxes im
                = findEventStat boxes (Some im) 0.5 0.15 true 5) ∨
   (app_server.event_type s = 1 ∧ app_server.event_name s = "AlertStranger"%string ∧
    ∀ boxes im, app_server.classify_frame (Img := Img) 1 boxes im
                = alertStrangerIntrusion boxes (Some im) 0.5 0.15 true) ∨
   (app_server.event_type s = 2 ∧ app_server.event_name s = "MonitorVehicle"%string ∧
    ∀ boxes im, app_server.classify_frame (Img := Img) 2 boxes im
                = monitorVehicle boxes (Some im) 0.5 0.15 true)).
Proof.
  intros Hstep%reachable_in_step.
  split; [done|]. destruct Hstep as (_ & _ & Hname).
  destruct (eventName_lookup _ _ Hname) as [[-> ->]|[[-> ->]|[-> ->]]];
    [left|right; left|right; right]; by repeat split.
Qed.



End Pipeline.

Lemma published_app {Img} (ws ws' : list (app_server.Write Img)) :
  published (ws ++ ws') = published ws + published ws'.
Proof. unfold published. rewrite List.filter_app, length_app. lia. Qed.

Section Frames.

Context {Img : Type} `{OpenCV}.
Variables (predict : Img → list Box) (visualize_box_mask : Img → list Box → Img).


Lemma poll_loop_stable (image : Img) (polls : list app_server.Poll) :
  ∀ (s s' : app_server.State) ws rest,
    Forall (fun p => app_server.polled_event_type p = app_server.event_type_prev s ∧
                     app_server.polled_app_mode p = app_server.app_mode_prev s) polls →
    app_server.poll_loop image polls s = (ws, app_server.finished (s', rest)) →
    app_server.event_manager s' = app_server.event_manager s ∧
    app_server.event_type s' = app_server.event_type_prev s ∧
    app_server.event_type_prev s' = app_server.event_type_prev s ∧
    app_server.app_mode_prev s' = app_server.app_mode_prev s ∧
    Forall (fun p => app_server.polled_event_type p = app_server.event_type_prev s ∧
                     app_server.polled_app_mode p = app_server.app_mode_prev s) rest.
Proof.
  induction polls as [|p polls IH]; intros s s' ws rest Hstable; cbn; [done|].
  apply Forall_cons in Hstable as [[Hpt Hpm] Hstable].
  destruct (app_server.pass image p s) as [e|[s1 w]] eqn:Hpass; [done|].
  apply pass_returns in Hpass as (_ & Het & _ & Hetp & Hamp & _ & _ & _ & Hcases).
  destruct Hcases as [(_ & _ & Hem & _)|([?|?] & _)]; [|done..].
  assert (app_server.event_type_prev s1 = app_server.event_type_prev s) as Hetp1
    by congruence.
  assert (app_server.app_mode_prev s1 = app_server.app_mode_prev s) as Hamp1
    by congruence.
  destruct (Z.eqb_spec (app_server.app_mode s1) 1) as [Hmode|Hmode]; cbn.
  - destruct (app_server.poll_loop image polls s1) as [ws1 outcome] eqn:Hloop.
    intros [= <- ->].
    destruct (IH s1 s' ws1 rest) as (Hem' & Het' & Hetp' & Hamp' & Hrest);
      [by rewrite Hetp1, Hamp1|done|].
    rewrite Hetp1, Hamp1 in *. repeat split; congruence.
  - intros [= <- <- <-]. repeat split; try done; congruence.
Qed.

(** X18: as long as the two keys are polled with the values they had at
    the pass before, the pipeline keeps the settings it holds, whatever
    the files have become: a settings file saved while the pipeline
    streams is not read until the mode or the event type changes. *)
Theorem settings_are_kept_while_the_keys_are_the_same (frames : list (option Img))
    (polls : list app_server.Poll) (s s' : app_server.State)
    (ws : list (app_server.Write Img)) :
  Forall (fun p => app_server.polled_event_type p = app_server.event_type_prev s ∧
                   app_server.polled_app_mode p = app_server.app_mode_prev s) polls →
  app_server.frames_loop predict visualize_box_mask frames polls s
    = (ws, app_server.finished s') →
  contourROI (app_server.event_manager s') = contourROI (app_server.event_manager s).
Proof.
  revert polls s ws. induction frames as [|[image|] frames IH]; intros polls s ws Hstable;
    cbn; [done| |by intros [= _ <-]].
  destruct (app_server.poll_loop image polls s) as [ws1 [[s1 rest]|e|]] eqn:Hloop; [|done..].
  destruct (poll_loop_stable image polls s s1 ws1 rest Hstable Hloop)
    as (Hem & Het & Hetp & Hamp & Hrest).
  destruct (app_server.process predict visualize_box_mask image s1) as [e|[s2 w]] eqn:Hproc;
    [done|].
  apply process_returns in Hproc as (Hem2 & _ & _ & Hetp2 & Hamp2 & _).
  destruct (app_server.frames_loop predict visualize_box_mask frames rest s2)
    as [ws2 outcome] eqn:Hrest'.
  intros [= <- ->].
  rewrite (IH rest s2 ws2); [|by rewrite Hetp2, Hamp2, Het, Hamp|done].
  rewrite Hem2, Hem. unfold advance. cbn. by destruct (_ =? _).
Qed.

Lemma poll_loop_counters (image : Img) (polls : list app_server.Poll) :
  ∀ (s s' : app_server.State) ws rest,
    app_server.poll_loop image polls s = (ws, app_server.finished (s', rest)) →
    colorBlink (app_server.event_manager s') = colorBlink (app_server.event_manager s) ∧
    app_server.index s' = app_server.index s ∧ published ws = 0.
Proof.
  induction polls as [|p polls IH]; intros s s' ws rest; cbn; [done|].
  destruct (app_server.pass image p s) as [e|[s1 w]] eqn:Hpass; [done|].
  apply pass_returns in Hpass as (-> & _ & _ & _ & _ & Hidx & _ & Hblink & _).
  destruct (Z.eqb_spec (app_server.app_mode s1) 1) as [Hmode|Hmode]; cbn.
  - destruct (app_server.poll_loop image polls s1) as [ws1 outcome] eqn:Hloop.
    intros [= <- ->]. destruct (IH s1 s' ws1 rest Hloop) as (Hb & Hi & Hp).
    repeat split; [congruence..|]. exact Hp.
  - by intros [= <- <- <-].
Qed.

Lemma frames_loop_counters (frames : list (option Img)) :
  ∀ (polls : list app_server.Poll) (s s' : app_server.State) ws,
    0 ≤ colorBlink (app_server.event_manager s) ≤ 9 →
    app_server.frames_loop predict visualize_box_mask frames polls s
      = (ws, app_server.finished s') →
    colorBlink (app_server.event_manager s')
      = (colorBlink (app_server.event_manager s) + published ws) mod 10 ∧
    app_server.index s' = app_server.index s + published ws.
Proof.
  induction frames as [|[image|] frames IH]; intros polls s s' ws Hb; cbn; [done|..].
  - destruct (app_server.poll_loop image polls s) as [ws1 [[s1 rest]|e|]] eqn:Hloop;
      [|done..].
    apply poll_loop_counters in Hloop as (Hb1 & Hi1 & Hp1).
    destruct (app_server.process predict visualize_box_mask image s1) as [e|[s2 w]] eqn:Hproc;
      [done|].
    apply process_returns in Hproc as (Hem2 & Hi2 & _ & _ & _ & _ & am & img & ->).
    destruct (app_server.frames_loop predict visualize_box_mask frames rest s2)
      as [ws2 outcome] eqn:Hrest.
    intros [= <- ->].
    assert (colorBlink (app_server.event_manager s2)
            = (colorBlink (app_server.event_manager s) + 1) mod 10) as Hb2.
    { rewrite Hem2, <- Hb1. apply advance_colorBlink. by rewrite Hb1. }
    destruct (IH rest s2 s' ws2) as (Hb' & Hi'); [|done|].
    { rewrite Hb2. pose proof (Z.mod_pos_bound (colorBlink (app_server.event_manager s) + 1) 10).
      lia. }
    assert (published (app_server.xadd am img :: ws2) = 1 + published ws2) as Hp2.
    { unfold published. cbn [List.filter length]. lia. }
    rewrite published_app, Hp2, Hp1.
    split; [|lia]. rewrite Hb', Hb2, Zplus_mod_idemp_l. f_equal. lia.
  - intros [= <- <-]. change (published []) with 0. rewrite !Z.add_0_r.
    split; [|done]. rewrite Z.mod_small; lia.
Qed.

(** X19: when [predict_publish] leaves its loop, [colorBlink] is the number
    of frames it has published on the stream, modulo 10, and [index] is
    that number plus 1: every frame that is processed advances the
    counter, and no pass of the inner loop, whatever it reloads, resets
    it. *)
Theorem colorBlink_counts_the_frames_published (files : Files) (app_config_dir : string)
    (event_type app_mode : Z) (frames : list (option Img)) (polls : list app_server.Poll)
    (ws : list (app_server.Write Img)) (s' : app_server.State) :
  app_server.predict_publish predict visualize_box_mask files app_config_dir
    event_type app_mode frames polls = (ws, app_server.finished s') →
  colorBlink (app_server.event_manager s') = published ws mod 10 ∧
  app_server.index s' = 1 + published ws.
Proof.
  unfold app_server.predict_publish.
  destruct (app_server.start files app_config_dir event_type app_mode) as [e|s] eqn:Hstart;
    [done|].
  intros Hloop.
  assert (colorBlink (app_server.event_manager s) = 0 ∧ app_server.index s = 1) as [Hb Hi].
  { unfold app_server.start, init in Hstart.
    destruct (eventName_getitem event_type) as [e|name]; cbn in Hstart; [done|].
    destruct (json_load_open files _) as [e|d]; cbn in Hstart; [done|].
    unfold eventName_getitem in Hstart.
    destruct (eventName !! event_type); [|done]. by injection Hstart as <-. }
  destruct (frames_loop_counters frames polls s s' ws) as (Hb' & Hi'); [lia|done|].
  by rewrite Hb', Hi', Hb, Hi.
Qed.

End Frames.

Section Switched.

Context {Img : Type} `{OpenCV}.

Lemma configureROI_saves (img_np : Img) (d : ROISettings)
    (eventType app_config_dir whichROI : string) (x y : Z) (alpha : Q)
    (buttons : ui_server.Buttons) (files files' : Files) (picture : ui_server.Picture Img) :
  ui_server.configureROI img_np d eventType app_config_dir whichROI x y alpha buttons files
    = ok (files', picture) →
  ∃ d', ui_server.press buttons whichROI x y d = ok d' ∧
        files' = ui_server.json_dump_open files (settings_path app_config_dir eventType) d'.
Proof.
  unfold ui_server.configureROI. intros Hrun.
  destruct (ui_server.press buttons whichROI x y d) as [e|d'] eqn:Hpress; cbn in Hrun; [done|].
  destruct (for_each _ _ _) as [e|images]; cbn in Hrun; [done|].
  injection Hrun as <- _. by exists d'.
Qed.

(** X20: the regions drawn on the page are in force as soon as the
    pipeline sees the switch: when [configureROI] has saved the settings
    of an event and the pipeline, which has last seen [app_mode] 1, polls
    another mode with the number of that event, it leaves the inner loop
    at that pass holding exactly the settings the page saved, having
    published the frame under the name of the event, with [colorBlink]
    as it was. *)
Theorem settings_drawn_are_in_force_after_the_switch (img_np : Img) (d : ROISettings)
    (eventType app_config_dir whichROI : string) (x y : Z) (alpha : Q)
    (buttons : ui_server.Buttons) (files files' : Files) (picture : ui_server.Picture Img)
    (event_type app_mode : Z) (s : app_server.State) (image : Img)
    (rest : list app_server.Poll) :
  ui_server.configureROI img_np d eventType app_config_dir whichROI x y alpha buttons files
    = ok (files', picture) →
  eventName !! event_type = Some eventType →
  app_server.app_mode_prev s = 1 → app_mode ≠ 1 →
  configPath (app_server.event_manager s) = app_config_dir →
  ∃ d' s',
    ui_server.press buttons whichROI x y d = ok d' ∧
    app_server.poll_loop image (app_server.mkPoll app_mode event_type files' :: rest) s
      = ([app_server.set eventType image], app_server.finished (s', rest)) ∧
    app_server.event_manager s'
      = mkEventManager app_config_dir d' (colorBlink (app_server.event_manager s)) event_type ∧
    app_server.event_type s' = event_type.
Proof.
  intros Hrun Hname Hprev Hmode Hpath.
  destruct (configureROI_saves _ _ _ _ _ _ _ _ _ _ _ _ Hrun) as (d' & Hpress & ->).
  assert (updateROISettings
            (ui_server.json_dump_open files (settings_path app_config_dir eventType) d')
            event_type (app_server.event_manager s)
          = (ok tt, mkEventManager app_config_dir d'
                      (colorBlink (app_server.event_manager s)) event_type)) as Hupdate.
  { unfold updateROISettings, eventName_getitem, json_load_open. cbn.
    rewrite Hname. cbn. rewrite Hpath. unfold ui_server.json_dump_open.
    by rewrite bool_decide_eq_true_2. }
  assert (∀ self, getEventName event_type self = (ok eventType, self)) as Hget.
  { intros self. unfold getEventName, eventName_getitem. by rewrite Hname. }
  exists d'. eexists. split; [done|].
  cbn [app_server.poll_loop]. unfold app_server.pass.
  cbn [app_server.polled_app_mode app_server.polled_event_type app_server.polled_files].
  rewrite Hprev, (proj2 (Z.eqb_neq app_mode 1) Hmode), orb_true_r, Hupdate, Hget.
  cbn. by rewrite (proj2 (Z.eqb_neq app_mode 1) Hmode).
Qed.

End Switched.

(** The runs of the pipeline below: a detector that finds one car, no
    drawing of the boxes, and files that hold the square for every
    event. *)
Module Run.

Definition predict (image : unit) : list Box := [Scene.car].

Definition visualize_box_mask (image : unit) (boxes : list Box) : unit := image.

Definition files : Files := fun _ => Some Scene.one_square.

Definition edited : Files := fun _ => Some Scene.one_strip.

End Run.

Lemma pipeline_event_type_is_known_witness :
  ∃ s, app_server.start Run.files "config" 1 2 = ok s ∧
       in_step s ∧ app_server.event_name s = "AlertStranger"%string.
Proof.
  eexists. split; [by vm_compute|].
  destruct (pipeline_event_type_is_known Run.predict Run.visualize_box_mask
              (app_server.mkState 1 (mkEventManager "config" Scene.one_square 0 1)
                 "AlertStranger" 1 2 1 2))
    as [Hstep [(Het & _)|[(_ & Hname & _)|(Het & _)]]];
    [by apply (reachable_start _ _ Run.files "config" 1 2); vm_compute
    |discriminate Het|done|discriminate Het].
Defined.



Lemma settings_are_kept_while_the_keys_are_the_same_witness :
  ∃ ws s',
    app_server.frames_loop Run.predict Run.visualize_box_mask [Some tt; Some tt; None]
      [app_server.mkPoll 2 0 Run.edited; app_server.mkPoll 2 0 Run.edited]
      (app_server.mkState 1 (mkEventManager "config" Scene.one_square 0 0) "EventStat" 0 2 0 2)
      = (ws, app_server.finished s') ∧
    contourROI (app_server.event_manager s') = Scene.one_square.
Proof.
  destruct (app_server.frames_loop Run.predict Run.visualize_box_mask [Some tt; Some tt; None]
              [app_server.mkPoll 2 0 Run.edited; app_server.mkPoll 2 0 Run.edited]
              (app_server.mkState 1 (mkEventManager "config" Scene.one_square 0 0)
                 "EventStat" 0 2 0 2))
    as [ws [s'|e|]] eqn:Hrun; [|by vm_compute in Hrun..].
  exists ws, s'. split; [done|].
  rewrite (fun Hstable =>
             settings_are_kept_while_the_keys_are_the_same Run.predict Run.visualize_box_mask
               _ _ _ _ _ Hstable Hrun); [done|].
  by repeat constructor.
Defined.

Lemma colorBlink_counts_the_frames_published_witness :
  ∃ ws s',
    app_server.predict_publish Run.predict Run.visualize_box_mask Run.files "config" 0 2
      [Some tt; Some tt; Some tt; None]
      [app_server.mkPoll 2 0 Run.files; app_server.mkPoll 1 1 Run.files;
       app_server.mkPoll 2 1 Run.files; app_server.mkPoll 2 1 Run.files]
      = (ws, app_server.finished s') ∧
    colorBlink (app_server.event_manager s') = 3 ∧ app_server.index s' = 4.
Proof.
  destruct (app_server.predict_publish Run.predict Run.visualize_box_mask Run.files "config"
              0 2 [Some tt; Some tt; Some tt; None]
              [app_server.mkPoll 2 0 Run.files; app_server.mkPoll 1 1 Run.files;
               app_server.mkPoll 2 1 Run.files; app_server.mkPoll 2 1 Run.files])
    as [ws [s'|e|]] eqn:Hrun; [|by vm_compute in Hrun..].
  exists ws, s'. split; [done|].
  destruct (colorBlink_counts_the_frames_published Run.predict Run.visualize_box_mask
              _ _ _ _ _ _ _ _ Hrun) as [-> ->].
  vm_compute in Hrun. injection Hrun as <- _. by vm_compute.
Defined.

Lemma settings_drawn_are_in_force_after_the_switch_witness :
  ∃ files' picture d' s',
    ui_server.configureROI (Img := unit) tt Scene.one_square "EventStat" "config" "ROI 2" 7 9
      0.15 (ui_server.mkButtons true false false) Run.files = ok (files', picture) ∧
    ui_server.press (ui_server.mkButtons true false false) "ROI 2" 7 9 Scene.one_square
      = ok d' ∧
    app_server.poll_loop tt [app_server.mkPoll 2 0 files']
      (app_server.mkState 1 (mkEventManager "config" Scene.one_square 6 0) "EventStat" 0 1 0 1)
      = ([app_server.set "EventStat" tt], app_server.finished (s', [])) ∧
    app_server.event_manager s' = mkEventManager "config" d' 6 0.
Proof.
  destruct (ui_server.configureROI (Img := unit) tt Scene.one_square "EventStat" "config"
              "ROI 2" 7 9 0.15 (ui_server.mkButtons true false false) Run.files)
    as [e|[files' picture]] eqn:Hrun; [by vm_compute in Hrun|].
  destruct (settings_drawn_are_in_force_after_the_switch (Img := unit) tt Scene.one_square
              "EventStat" "config" "ROI 2" 7 9 0.15 (ui_server.mkButtons true false false)
              Run.files files' picture 0 2
              (app_server.mkState 1 (mkEventManager "config" Scene.one_square 6 0)
                 "EventStat" 0 1 0 1) tt [] Hrun)
    as (d' & s' & Hpress & Hloop & Hem & _); [done..|].
  by exists files', picture, d', s'.
Defined.

(** ** Two more edges *)

Lemma item_set_item_other (d : ROISettings) (whichROI other : string) (points : Contour) :
  other ≠ whichROI →
  ui_server.item (ui_server.set_item d whichROI points) other = ui_server.item d other.
Proof.
  intros Hne. induction d as [|[k old] d IH]; cbn; [done|].
  case_bool_decide as Hk; cbn.
  - subst k. by rewrite !bool_decide_eq_false_2 by done.
  - case_bool_decide; [done|]. apply IH.
Qed.

Lemma press_without_clear (buttons : ui_server.Buttons) (whichROI : string) (x y : Z)
    (d d' : ROISettings) :
  ui_server.clear_all buttons = false →
  ui_server.press buttons whichROI x y d = ok d' →
  d' = d ∨ ∃ points, d' = ui_server.set_item d whichROI points.
Proof.
  intros Hclear. unfold ui_server.press. rewrite Hclear.
  assert (∀ d0 d1, ui_server.create_point whichROI x y d0 = ok d1 →
            d1 = d0 ∨ ∃ points, d1 = ui_server.set_item d0 whichROI points) as Hcreate.
  { intros d0 d1. unfold ui_server.create_point.
    destruct (ui_server.item d0 whichROI) as [e|points]; cbn; [done|].
    case_bool_decide; intros [= <-]; [right; by eexists|by left]. }
  assert (∀ d0 d1, ui_server.delete_last_point whichROI d0 = ok d1 →
            d1 = d0 ∨ ∃ points, d1 = ui_server.set_item d0 whichROI points) as Hdelete.
  { intros d0 d1. unfold ui_server.delete_last_point.
    destruct (ui_server.item d0 whichROI) as [e|points]; cbn; [done|].
    destruct (negb _); intros [= <-]; [right; by eexists|by left]. }
  destruct (ui_server.create_points buttons), (ui_server.delete_last_points buttons); cbn.
  - destruct (ui_server.create_point whichROI x y d) as [e|d1] eqn:H1; cbn; [done|].
    destruct (ui_server.delete_last_point whichROI d1) as [e|d2] eqn:H2; cbn; [done|].
    intros [= <-]. apply Hcreate in H1. apply Hdelete in H2.
    destruct H1 as [->|[p1 ->]], H2 as [->|[p2 ->]]; eauto.
    right. exists p2. by rewrite set_item_twice.
  - destruct (ui_server.create_point whichROI x y d) as [e|d1] eqn:H1; cbn; [done|].
    intros [= <-]. by apply Hcreate.
  - destruct (ui_server.delete_last_point whichROI d) as [e|d2] eqn:H2; cbn; [done|].
    intros [= <-]. by apply Hdelete.
  - intros [= <-]. by left.
Qed.

(** X21: unless "Clear All" is pressed, the buttons change the points of
    the region selected only: every other region of the settings has the
    points it had, and the keys and their order are the same. *)
Theorem press_changes_the_selected_region_only (buttons : ui_server.Buttons)
    (whichROI : string) (x y : Z) (d d' : ROISettings) :
  ui_server.clear_all buttons = false →
  ui_server.press buttons whichROI x y d = ok d' →
  d'.*1 = d.*1 ∧
  ∀ other, other ≠ whichROI → ui_server.item d' other = ui_server.item d other.
Proof.
  intros Hclear Hpress.
  destruct (press_without_clear _ _ _ _ _ _ Hclear Hpress) as [->|[points ->]]; [done|].
  split; [apply set_item_keys|]. intros other Hne. by apply item_set_item_other.
Qed.

Lemma press_changes_the_selected_region_only_witness :
  ∃ d',
    ui_server.press (ui_server.mkButtons false true false) "ROI 1" 0 0 Scene.one_square
      = ok d' ∧
    d'.*1 = Scene.one_square.*1 ∧
    ui_server.item d' "ROI 1" = ok [(0, 0); (100, 0); (100, 100)] ∧
    ui_server.item d' "ROI 2" = ui_server.item Scene.one_square "ROI 2".
Proof.
  eexists. split; [by vm_compute|].
  destruct (press_changes_the_selected_region_only (ui_server.mkButtons false true false)
              "ROI 1" 0 0 Scene.one_square
              (ui_server.set_item Scene.one_square "ROI 1" [(0, 0); (100, 0); (100, 100)]))
    as [Hkeys Hother]; [done|by vm_compute|].
  split; [exact Hkeys|]. split; [by vm_compute|]. by apply Hother.
Defined.

Section Stopped.

Context {Img : Type} `{OpenCV}.
Variables (predict : Img → list Box) (visualize_box_mask : Img → list Box → Img).

(** X22: a change of event type (or of mode) to an event whose settings
    file does not exist stops the pipeline: [updateROISettings] raises
    [FileNotFoundError] in the inner loop, nothing is published for the
    frame, and no later frame is read. *)
Theorem switch_without_settings_stops_the_pipeline (image : Img)
    (frames : list (option Img)) (p : app_server.Poll) (polls : list app_server.Poll)
    (s : app_server.State) (name : string) :
  app_server.polled_event_type p ≠ app_server.event_type_prev s ∨
  app_server.polled_app_mode p ≠ app_server.app_mode_prev s →
  eventName !! app_server.polled_event_type p = Some name →
  app_server.polled_files p
    (settings_path (configPath (app_server.event_manager s)) name) = None →
  app_server.frames_loop predict visualize_box_mask (Some image :: frames) (p :: polls) s
    = ([], app_server.crashed
             (FileNotFoundError
                (settings_path (configPath (app_server.event_manager s)) name))).
Proof.
  intros Hchanged Hname Hfile.
  assert (app_server.pass image p s
          = raise (FileNotFoundError
                     (settings_path (configPath (app_server.event_manager s)) name)))
    as Hpass.
  { unfold app_server.pass.
    assert (negb (app_server.polled_event_type p =? app_server.event_type_prev s)
            || negb (app_server.polled_app_mode p =? app_server.app_mode_prev s) = true)
      as ->.
    { destruct Hchanged as [Hc|Hc]; apply Z.eqb_neq in Hc; rewrite Hc; [done|].
      apply orb_true_r. }
    unfold updateROISettings, eventName_getitem, json_load_open. cbn.
    rewrite Hname. cbn. by rewrite Hfile. }
  cbn [app_server.frames_loop app_server.poll_loop]. by rewrite Hpass.
Qed.

End Stopped.

Lemma switch_without_settings_stops_the_pipeline_witness :
  app_server.frames_loop Run.predict Run.visualize_box_mask [Some tt; Some tt]
    [app_server.mkPoll 2 1 (fun _ => None); app_server.mkPoll 2 1 Run.files]
    (app_server.mkState 1 (mkEventManager "config" Scene.one_square 0 0) "EventStat" 0 2 0 2)
  = ([], app_server.crashed (FileNotFoundError "config/AlertStranger.json")).
Proof.
  apply (switch_without_settings_stops_the_pipeline Run.predict Run.visualize_box_mask tt
           [Some tt] (app_server.mkPoll 2 1 (fun _ => None)) [app_server.mkPoll 2 1 Run.files]
           (app_server.mkState 1 (mkEventManager "config" Scene.one_square 0 0)
              "EventStat" 0 2 0 2) "AlertStranger"); [by left|done|done].
Defined.
